(** * The xv6 console line discipline (kernel/console.c)

    A shallow embedding of the console driver: the circular input buffer
    [cons] with its three indices, the interrupt handler [consoleintr],
    the blocking reader [consoleread], [consolewrite] and the mode
    control [consoleioctl].

    The global [cons] is threaded through a small state-and-output monad;
    everything the driver calls outside of the file (the uart, the
    scheduler, the copy routines) is either an emitted [event] or an
    oracle of the record [extern]. *)

From Stdlib Require Import ZArith Ascii Lia.
From stdpp Require Import base list.

Local Open Scope Z_scope.

(** ** Machine integers *)

(** [uint] arithmetic wraps modulo 2^32, [uint64] modulo 2^64. *)
Definition uint (x : Z) : Z := x mod 2 ^ 32.
Definition uint64 (x : Z) : Z := x mod 2 ^ 64.

(** Conversion of a [uint] to the [int] a function returns. *)
Definition to_int (x : Z) : Z := if x <? 2 ^ 31 then x else x - 2 ^ 32.

(** A value stored into a [char] slot keeps its low eight bits ([char]
    is unsigned on RISC-V, so this is also the value read back). *)
Definition to_char (c : Z) : Z := c mod 256.

(** Character literals. *)
Definition chr (a : ascii) : Z := Z.of_N (N_of_ascii a).

(** ** Constants of the file *)

Definition BACKSPACE : Z := 0x100.
Definition C (x : Z) : Z := x - chr "@".
Definition INPUT_BUF : Z := 128.

(** [termios.h] and [ioctl.h] are not among the sources: the two mode
    bits and the two request codes are parameters of the development. *)
Class Headers := {
  ECHO : Z;
  ICANON : Z;
  TCGETA : Z;
  TCSETA : Z
}.

(** The values these names have in the usual headers; they are used
    where a run of the driver is evaluated on concrete input. *)
Definition usual_headers : Headers :=
  {| ECHO := 0x8; ICANON := 0x2; TCGETA := 0x5405; TCSETA := 0x5406 |}.

(** ** The console state *)

(** Of [struct termios] the driver only consults [c_lflag]. *)
Record termios := { c_lflag : Z }.

Record cons_t := {
  cons_buf : list Z;        (* char buf[INPUT_BUF] *)
  cons_r : Z;               (* Read index *)
  cons_w : Z;               (* Write index *)
  cons_e : Z;               (* Edit index *)
  cons_termios : termios
}.

Definition set_buf (b : list Z) (s : cons_t) : cons_t :=
  {| cons_buf := b; cons_r := cons_r s; cons_w := cons_w s;
     cons_e := cons_e s; cons_termios := cons_termios s |}.
Definition set_r (v : Z) (s : cons_t) : cons_t :=
  {| cons_buf := cons_buf s; cons_r := v; cons_w := cons_w s;
     cons_e := cons_e s; cons_termios := cons_termios s |}.
Definition set_w (v : Z) (s : cons_t) : cons_t :=
  {| cons_buf := cons_buf s; cons_r := cons_r s; cons_w := v;
     cons_e := cons_e s; cons_termios := cons_termios s |}.
Definition set_e (v : Z) (s : cons_t) : cons_t :=
  {| cons_buf := cons_buf s; cons_r := cons_r s; cons_w := cons_w s;
     cons_e := v; cons_termios := cons_termios s |}.
Definition set_termios (t : termios) (s : cons_t) : cons_t :=
  {| cons_buf := cons_buf s; cons_r := cons_r s; cons_w := cons_w s;
     cons_e := cons_e s; cons_termios := t |}.

(** [cons.buf[i % INPUT_BUF]] and the assignment to that slot. *)
Definition buf_get (s : cons_t) (i : Z) : Z :=
  cons_buf s !!! Z.to_nat (i mod INPUT_BUF).
Definition buf_set (i c : Z) (s : cons_t) : cons_t :=
  set_buf (<[Z.to_nat (i mod INPUT_BUF) := to_char c]> (cons_buf s)) s.

(** ** What the driver does to the outside *)

Inductive event :=
| uartputc_sync (c : Z)
| uartputc (c : Z)
| procdump
| wakeup                                   (* wakeup(&cons.r) *)
| copied_out (user_dst dst c : Z)          (* one byte stored by either_copyout *)
| copied_termios (dst : Z) (t : termios).  (* cons.termios stored by either_copyout *)

(** What the rest of the kernel answers. One record describes the
    surroundings during one stretch in which the driver holds its lock. *)
Record extern := {
  killed : bool;                      (* myproc()->killed *)
  copyout_ok : Z -> Z -> Z -> bool;   (* either_copyout(user_dst, dst, _, len) != -1 *)
  copyin_ok : Z -> Z -> Z -> bool;    (* either_copyin(_, user_src, src, len) != -1 *)
  user_byte : Z -> Z -> Z;            (* the byte either_copyin fetches *)
  user_termios : Z -> termios;        (* the struct termios found at a user address *)
  addr_cons_termios : Z;              (* (uint64)&cons.termios *)
  sizeof_termios : Z
}.

(** ** The monad: the global [cons] and the events emitted *)

Definition M (A : Type) : Type := cons_t -> A * cons_t * list event.

Definition ret {A} (a : A) : M A := fun s => (a, s, []).
Definition bind {A B} (m : M A) (k : A -> M B) : M B :=
  fun s =>
    let '(a, s1, o1) := m s in
    let '(b, s2, o2) := k a s1 in
    (b, s2, o1 ++ o2).
Definition get : M cons_t := fun s => (s, s, []).
Definition modify (f : cons_t -> cons_t) : M unit := fun s => (tt, f s, []).
Definition emit (ev : event) : M unit := fun s => (tt, s, [ev]).

Notation "x <- m ;; k" := (bind m (fun x => k))
  (at level 100, m at next level, k at level 200, right associativity).
Notation "m ;; k" := (bind m (fun _ => k))
  (at level 100, k at level 200, right associativity).

Definition value {A} (m : M A) (s : cons_t) : A := (m s).1.1.
Definition exec {A} (m : M A) (s : cons_t) : cons_t := (m s).1.2.
Definition output {A} (m : M A) (s : cons_t) : list event := (m s).2.

(** ** The driver *)

Section Driver.
Context {H : Headers}.

(** send one character to the uart. *)
Definition consputc (c : Z) : M unit :=
  if c =? BACKSPACE then
    emit (uartputc_sync (chr "008")) ;;
    emit (uartputc_sync (chr " ")) ;;
    emit (uartputc_sync (chr "008"))
  else
    emit (uartputc_sync c).

Definition is_set (mask : Z) (s : cons_t) : bool :=
  negb (Z.land (c_lflag (cons_termios s)) mask =? 0).

Definition consechoc (c : Z) : M unit :=
  s <- get ;;
  if is_set ECHO s then consputc c else ret tt.

(** The loop of the kill-line case. Every turn takes one off [cons.e] and
    the loop is left at the latest when [cons.e] meets [cons.w], so
    [cons.e - cons.w] turns are enough. *)
Fixpoint kill_loop (fuel : nat) : M unit :=
  match fuel with
  | O => ret tt
  | S fuel' =>
      s <- get ;;
      if negb (cons_e s =? cons_w s)
         && negb (buf_get s (uint (cons_e s - 1)) =? chr "010")
      then
        modify (set_e (uint (cons_e s - 1))) ;;
        consputc BACKSPACE ;;
        kill_loop fuel'
      else ret tt
  end.

(** The [switch] of [consoleintr], entered in canonical mode only. *)
Definition line_edit (c : Z) : M unit :=
  s <- get ;;
  if c =? C (chr "P") then emit procdump
  else if c =? C (chr "U") then
    kill_loop (Z.to_nat (uint (cons_e s - cons_w s)))
  else if (c =? C (chr "H")) || (c =? chr "127") then
    if negb (cons_e s =? cons_w s) then
      modify (set_e (uint (cons_e s - 1))) ;;
      consputc BACKSPACE
    else ret tt
  else ret tt.

(** the console input interrupt handler. *)
Definition consoleintr (c : Z) : M unit :=
  s <- get ;;
  (if is_set ICANON s then line_edit c else ret tt) ;;
  s <- get ;;
  if negb (c =? 0) && (uint (cons_e s - cons_r s) <? INPUT_BUF) then
    let c := if c =? chr "013" then chr "010" else c in
    (if is_set ECHO s then consputc c else ret tt) ;;
    modify (buf_set (cons_e s) c) ;;
    modify (set_e (uint (cons_e s + 1))) ;;
    s <- get ;;
    if (c =? chr "010") || (c =? C (chr "D"))
       || (cons_e s =? uint (cons_r s + INPUT_BUF))
       || negb (is_set ICANON s)
    then
      modify (set_w (cons_e s)) ;;
      emit wakeup
    else
      modify (set_w (cons_e s)) ;;
      emit wakeup
  else ret tt.

(** user write()s to the console go here. The loop runs [i] from 0 up to
    [n]; [fuel] counts the turns left. *)
Fixpoint write_loop (x : extern) (fuel : nat) (user_src src i : Z) : M Z :=
  match fuel with
  | O => ret i
  | S fuel' =>
      if copyin_ok x user_src (uint64 (src + i)) 1 then
        emit (uartputc (user_byte x user_src (uint64 (src + i)))) ;;
        write_loop x fuel' user_src src (i + 1)
      else ret i
  end.

Definition consolewrite (x : extern) (user_src src n : Z) : M Z :=
  write_loop x (Z.to_nat n) user_src src 0.

(** How a stretch of [consoleread] under the lock ends: the call returns,
    or it goes to sleep on [&cons.r] with its locals as they are. *)
Inductive read_end :=
| Returned (v : Z)
| Asleep (target dst n : Z).

(** The [while(n > 0)] loop of [consoleread]. A turn that does not leave
    the loop takes one off [n], so [n] turns are enough. *)
Fixpoint read_loop (x : extern) (fuel : nat) (user_dst target dst n : Z)
  : M read_end :=
  match fuel with
  | O => ret (Returned (to_int (uint (target - n))))
  | S fuel' =>
      if n >? 0 then
        s <- get ;;
        if cons_r s =? cons_w s then
          if killed x then ret (Returned (-1))
          else ret (Asleep target dst n)
        else
          let c := buf_get s (cons_r s) in
          modify (set_r (uint (cons_r s + 1))) ;;
          if (c =? C (chr "D")) && is_set ICANON s then
            (if uint n <? target then
               s <- get ;; modify (set_r (uint (cons_r s - 1)))
             else ret tt) ;;
            ret (Returned (to_int (uint (target - n))))
          else if negb (copyout_ok x user_dst dst 1) then
            ret (Returned (to_int (uint (target - n))))
          else
            emit (copied_out user_dst dst c) ;;
            let dst := uint64 (dst + 1) in
            let n := n - 1 in
            if (c =? chr "010") && is_set ICANON s then
              ret (Returned (to_int (uint (target - n))))
            else read_loop x fuel' user_dst target dst n
      else ret (Returned (to_int (uint (target - n))))
  end.

(** user read()s from the console go here. *)
Definition consoleread (x : extern) (user_dst dst n : Z) : M read_end :=
  read_loop x (Z.to_nat n) user_dst (uint n) dst n.

(** A sleeping [consoleread] is woken: it is back at the test of the
    inner loop, with [n > 0] as before. *)
Definition consoleread_wake (x : extern) (user_dst target dst n : Z)
  : M read_end :=
  read_loop x (Z.to_nat n) user_dst target dst n.

Definition consoleioctl (x : extern) (req ttyctl : Z) : M Z :=
  let termios_p := ttyctl in
  if negb (req =? TCGETA) && negb (req =? TCSETA) then ret (-1)
  else if req =? TCGETA then
    s <- get ;;
    if negb (copyout_ok x 1 termios_p (sizeof_termios x)) then ret (-1)
    else emit (copied_termios termios_p (cons_termios s)) ;; ret 0
  else
    (* either_copyin(&termios_p, 1, (uint64)&(cons.termios), ...): the
       bytes fetched land in the local [termios_p], [cons] is not
       assigned. *)
    if negb (copyin_ok x 1 (addr_cons_termios x) (sizeof_termios x)) then ret (-1)
    else ret 0.

(** [cons] lives in zeroed static storage; [consoleinit] sets the mode. *)
Definition cons_zero : cons_t :=
  {| cons_buf := replicate (Z.to_nat INPUT_BUF) 0;
     cons_r := 0; cons_w := 0; cons_e := 0;
     cons_termios := {| c_lflag := 0 |} |}.

Definition consoleinit : M unit :=
  modify (set_termios {| c_lflag := Z.lor ECHO ICANON |}).

Definition cons_init : cons_t := exec consoleinit cons_zero.

(** ** Runs of the driver *)

(** One entry into the driver, up to the point where it gives up the
    lock. *)
Inductive call :=
| Intr (c : Z)
| Read (user_dst dst n : Z)
| Wake (user_dst target dst n : Z)
| Write (user_src src n : Z)
| Ioctl (req ttyctl : Z).

Definition step (x : extern) (k : call) : M unit :=
  match k with
  | Intr c => consoleintr c
  | Read user_dst dst n => consoleread x user_dst dst n ;; ret tt
  | Wake user_dst target dst n =>
      consoleread_wake x user_dst target dst n ;; ret tt
  | Write user_src src n => consolewrite x user_src src n ;; ret tt
  | Ioctl req ttyctl => consoleioctl x req ttyctl ;; ret tt
  end.

(** The state after a sequence of calls, the first call first. *)
Fixpoint run_from (s : cons_t) (tr : list (extern * call)) : cons_t :=
  match tr with
  | [] => s
  | (x, k) :: tr' => run_from (exec (step x k) s) tr'
  end.

Definition run (tr : list (extern * call)) : cons_t := run_from cons_init tr.

(** The character [consoleintr] stores for [c]. *)
Definition stored (c : Z) : Z := if c =? chr "013" then chr "010" else c.

(** [inv b s]: the write index has caught up with the edit index, and
    the stored indices are the 32-bit images of counters [R <= E] that
    never wrapped, at most [INPUT_BUF] apart, [E] being at most [b]. *)
Definition inv (b : Z) (s : cons_t) : Prop :=
  cons_w s = cons_e s /\
  exists R E,
    0 <= R <= E /\ E <= b /\ E - R <= INPUT_BUF /\
    cons_r s = uint R /\ cons_e s = uint E.

(** The characters the [switch] of [consoleintr] has a case for. *)
Definition editing (c : Z) : bool :=
  (c =? C (chr "P")) || (c =? C (chr "U"))
  || (c =? C (chr "H")) || (c =? chr "127").

End Driver.

(** Surroundings in which nobody is killed and every copy succeeds; at
    every user address there is a [struct termios] asking for raw mode
    without echo. *)
Definition calm : extern :=
  {| killed := false;
     copyout_ok := fun _ _ _ => true;
     copyin_ok := fun _ _ _ => true;
     user_byte := fun _ _ => 0;
     user_termios := fun _ => {| c_lflag := 0 |};
     addr_cons_termios := 0x80010000;
     sizeof_termios := 4 |}.

(** The same surroundings for a task that has been killed. *)
Definition doomed : extern :=
  {| killed := true;
     copyout_ok := copyout_ok calm;
     copyin_ok := copyin_ok calm;
     user_byte := user_byte calm;
     user_termios := user_termios calm;
     addr_cons_termios := addr_cons_termios calm;
     sizeof_termios := sizeof_termios calm |}.

(** Surroundings in which no user address can be written. *)
Definition faulting : extern :=
  {| killed := false;
     copyout_ok := fun _ _ _ => false;
     copyin_ok := copyin_ok calm;
     user_byte := user_byte calm;
     user_termios := user_termios calm;
     addr_cons_termios := addr_cons_termios calm;
     sizeof_termios := sizeof_termios calm |}.

(** The uart delivers the characters of [l] one after the other. *)
Definition typed (l : list Z) : list (extern * call) :=
  map (fun c => (calm, Intr c)) l.

(** The bytes a call stored at the destination, in order. *)
Definition delivered (evs : list event) : list Z :=
  omap (fun ev => match ev with copied_out _ _ c => Some c | _ => None end) evs.

(** ** Some runs, with the usual header values *)

Section Scenarios.
#[local] Existing Instance usual_headers.

(** a, b, DEL, c, newline *)
Definition line_erased : list Z :=
  [chr "a"; chr "b"; chr "127"; chr "c"; chr "010"].

(** a, b, DEL, space, c, newline *)
Definition line_erased_spaced : list Z :=
  [chr "a"; chr "b"; chr "127"; chr " "; chr "c"; chr "010"].

(** hello, control-U, hi, newline *)
Definition line_killed : list Z :=
  [chr "h"; chr "e"; chr "l"; chr "l"; chr "o"; C (chr "U");
   chr "h"; chr "i"; chr "010"].

Definition after_erased : cons_t := run (typed line_erased).
Definition after_erased_spaced : cons_t := run (typed line_erased_spaced).
Definition after_killed : cons_t := run (typed line_killed).

(** [INPUT_BUF] characters typed and none read. *)
Definition full_cons : cons_t :=
  run (typed (replicate (Z.to_nat INPUT_BUF) (chr "a"))).

(** a, b typed; then control-D as well. *)
Definition ab_typed : cons_t := run (typed [chr "a"; chr "b"]).
Definition ab_eof_typed : cons_t :=
  run (typed [chr "a"; chr "b"; C (chr "D")]).

(** [ab_eof_typed] with a, b taken: control-D is next. *)
Definition eof_next : cons_t := set_r 2 ab_eof_typed.


(** [ab_typed] as it would be had a, b not been committed. *)
Definition ab_uncommitted : cons_t := set_w 0 ab_typed.

(** a, b typed; a read of 5 bytes that takes them and sleeps; then c
    and newline typed. *)
Definition ab_read_c_line : list (extern * call) :=
  typed [chr "a"; chr "b"] ++ [(calm, Read 0 0x1000 5)]
  ++ typed [chr "c"; chr "010"].

End Scenarios.

(** ** The buffer as a queue *)

(** The bytes committed and not yet read, oldest first: the slots from
    [cons.r] up to [cons.w]. *)
Definition pending (s : cons_t) : list Z :=
  map (fun i => buf_get s (uint (cons_r s + Z.of_nat i)))
      (seq 0 (Z.to_nat (uint (cons_w s - cons_r s)))).

(** What a character typed leaves in the buffer. *)
Definition keyed (c : Z) : Z := to_char (stored c).

(** The events of copying the bytes [l] out from [dst] on, one byte at
    a time with [dst++] in between. *)
Fixpoint copy_events (user_dst dst : Z) (l : list Z) : list event :=
  match l with
  | [] => []
  | c :: l' => copied_out user_dst dst c :: copy_events user_dst (uint64 (dst + 1)) l'
  end.

(** The address [dst] has become after [k] bytes. *)
Definition dst_after (dst : Z) (k : nat) : Z := Nat.iter k (fun d => uint64 (d + 1)) dst.

(** What [consputc(BACKSPACE)] sends. *)
Definition erase_seq : list event :=
  [uartputc_sync (chr "008"); uartputc_sync (chr " "); uartputc_sync (chr "008")].


(** What [consputc(c)] sends. *)
Definition echoed (c : Z) : list event :=
  if c =? BACKSPACE then erase_seq else [uartputc_sync c].

(** The bytes [consolewrite] sends for the addresses [src], ..., [src + k - 1]. *)
Definition written (x : extern) (user_src src k : Z) : list event :=
  map (fun i => uartputc (user_byte x user_src (uint64 (src + i)))) (seqZ 0 k).

Section Marks.
Context {H : Headers}.


(** What a stretch of [consoleread] with the result [res] has made of
    the queue of [s]: the bytes copied out were at its head, in this
    order, and went to [dst], [dst + 1], ...; what remains is its
    tail, but for at most one byte in between: an end-of-file mark
    taken in canonical mode, or a byte whose copy failed. *)
Definition reads_in_order (x : extern) (user_dst dst : Z) (s : cons_t)
    (res : read_end * cons_t * list event) : Prop :=
  exists eaten,
    pending s = delivered res.2 ++ eaten ++ pending res.1.2 /\
    res.2 = copy_events user_dst dst (delivered res.2) /\
    (eaten = [] \/
     (eaten = [C (chr "D")] /\ is_set ICANON s = true) \/
     (exists c, eaten = [c] /\
        copyout_ok x user_dst (dst_after dst (length (delivered res.2))) 1 = false)).

(** How a stretch of [consoleread] that began with [n] bytes to fetch
    ends after copying [len]: with the count [target - n] as it is
    then, or with -1 for a killed task, or asleep, both of these on an
    empty queue. *)
Definition ends_properly (x : extern) (target dst n : Z)
    (res : read_end * cons_t * list event) : Prop :=
  let len := Z.of_nat (length (delivered res.2)) in
  len <= Z.max 0 n /\
  (res.1.1 = Returned (to_int (uint (target - (n - len))))
   \/ (res.1.1 = Returned (-1) /\ killed x = true /\ pending res.1.2 = [])
   \/ (res.1.1 = Asleep target (dst_after dst (length (delivered res.2))) (n - len)
        /\ killed x = false /\ 0 < n - len /\ pending res.1.2 = [])).

End Marks.

(** ** Facts about machine integers *)

Lemma uint_range (x : Z) : 0 <= uint x < 2 ^ 32.
Proof. unfold uint. apply Z.mod_pos_bound. lia. Qed.

Lemma uint_small (x : Z) : 0 <= x < 2 ^ 32 -> uint x = x.
Proof. intros Hx. unfold uint. apply Z.mod_small. exact Hx. Qed.

Lemma uint_idem (x : Z) : uint (uint x) = uint x.
Proof. unfold uint. apply Z.mod_mod. lia. Qed.

Lemma uint_add_l (a b : Z) : uint (uint a + b) = uint (a + b).
Proof. unfold uint. apply Zplus_mod_idemp_l. Qed.

Lemma uint_sub_l (a b : Z) : uint (uint a - b) = uint (a - b).
Proof. unfold uint. apply Zminus_mod_idemp_l. Qed.

Lemma uint_sub_r (a b : Z) : uint (a - uint b) = uint (a - b).
Proof. unfold uint. apply Zminus_mod_idemp_r. Qed.

Lemma uint_inj_near (a b : Z) :
  uint a = uint b -> - 2 ^ 32 < a - b < 2 ^ 32 -> a = b.
Proof.
  unfold uint. intros Heq Hnear.
  pose proof (Z.div_mod a (2 ^ 32) ltac:(lia)) as Ha.
  pose proof (Z.div_mod b (2 ^ 32) ltac:(lia)) as Hb.
  rewrite Heq in Ha. nia.
Qed.

(** The count [target - n] a call returns, [k] bytes after it began with
    [n0] to fetch. *)
Lemma count_returned (n0 k : Z) :
  0 <= k <= n0 -> n0 < 2 ^ 31 ->
  to_int (uint (uint n0 - (n0 - k))) = k.
Proof.
  intros Hk Hn0. rewrite uint_sub_l.
  replace (n0 - (n0 - k)) with k by lia.
  rewrite uint_small by lia. unfold to_int.
  destruct (Z.ltb_spec k (2 ^ 31)); lia.
Qed.

(** ** The interrupt handler on a full buffer *)

Section Properties.
Context {H : Headers}.

(** C7: on a full buffer ([cons.e - cons.r] equal to [INPUT_BUF]) a
    character that is not 0 and has no case in the [switch] is dropped:
    [consoleintr] leaves [cons] as it is, slots and indices alike, and
    emits nothing, neither an echo nor a wakeup, whatever the mode. *)
Theorem consoleintr_full_drops (s : cons_t) (c : Z) :
  c <> 0 ->
  editing c = false ->
  uint (cons_e s - cons_r s) = INPUT_BUF ->
  consoleintr c s = (tt, s, []).
Proof.
  intros Hc Hed Hfull. unfold editing in Hed.
  apply orb_false_elim in Hed as [Hed H7f].
  apply orb_false_elim in Hed as [Hed Hh].
  apply orb_false_elim in Hed as [Hp Hu].
  unfold consoleintr, bind, get. cbn.
  assert (Hedit : (if is_set ICANON s then line_edit c else ret tt) s = (tt, s, [])).
  { destruct (is_set ICANON s); [|reflexivity].
    unfold line_edit, bind, get. rewrite Hp, Hu, Hh, H7f. reflexivity. }
  rewrite Hedit, Hfull. cbn.
  rewrite andb_false_r. reflexivity.
Qed.

(** ** The mode control *)

(** C8: a request that is neither [TCGETA] nor [TCSETA] makes
    [consoleioctl] return -1; [cons] is left as it is and nothing is
    copied. *)
Theorem consoleioctl_unknown_request (x : extern) (req ttyctl : Z) (s : cons_t) :
  req <> TCGETA ->
  req <> TCSETA ->
  consoleioctl x req ttyctl s = (-1, s, []).
Proof.
  intros Hget Hset. unfold consoleioctl.
  apply Z.eqb_neq in Hget. apply Z.eqb_neq in Hset.
  rewrite Hget, Hset. reflexivity.
Qed.

(** No request at all assigns to [cons]. *)
Lemma consoleioctl_exec (x : extern) (req ttyctl : Z) (s : cons_t) :
  exec (consoleioctl x req ttyctl) s = s.
Proof.
  unfold exec, consoleioctl.
  destruct (negb (req =? TCGETA) && negb (req =? TCSETA)); [reflexivity|].
  destruct (req =? TCGETA).
  - unfold bind, get. cbn.
    destruct (negb (copyout_ok x 1 ttyctl (sizeof_termios x))); reflexivity.
  - destruct (negb (copyin_ok x 1 (addr_cons_termios x) (sizeof_termios x)));
      reflexivity.
Qed.

(** ** The loops have turns enough *)

(** Whether the kill-line loop would take another turn. *)
Lemma kill_loop_done (fuel : nat) (s : cons_t) :
  0 <= cons_e s < 2 ^ 32 ->
  0 <= cons_w s < 2 ^ 32 ->
  uint (cons_e s - cons_w s) <= Z.of_nat fuel ->
  let s' := exec (kill_loop fuel) s in
  negb (cons_e s' =? cons_w s')
  && negb (buf_get s' (uint (cons_e s' - 1)) =? chr "010") = false.
Proof.
  revert s. induction fuel as [|fuel IH]; intros s He Hw Hfuel.
  - cbn. assert (Heq : cons_e s - cons_w s = 0).
    { apply uint_inj_near; [|lia]. change (uint 0) with 0.
      pose proof (uint_range (cons_e s - cons_w s)). lia. }
    replace (cons_e s) with (cons_w s) by lia.
    rewrite Z.eqb_refl. reflexivity.
  - unfold exec. cbn [kill_loop]. unfold bind, get. cbn.
    destruct (negb (cons_e s =? cons_w s)
              && negb (buf_get s (uint (cons_e s - 1)) =? chr "010")) eqn:Hturn;
      [|cbn; exact Hturn].
    apply andb_prop in Hturn as [Hne _].
    apply negb_true_iff, Z.eqb_neq in Hne.
    specialize (IH (set_e (uint (cons_e s - 1)) s)). unfold exec in IH.
    cbn in IH |- *.
    destruct (kill_loop fuel (set_e (uint (cons_e s - 1)) s)) as [[u s'] o'].
    cbn in IH |- *. apply IH; [apply uint_range|exact Hw|].
    rewrite uint_sub_l.
    replace (cons_e s - 1 - cons_w s) with (cons_e s - cons_w s - 1) by lia.
    rewrite <- uint_sub_l.
    assert (uint (cons_e s - cons_w s) <> 0).
    { intros Hz. apply Hne.
      assert (cons_e s - cons_w s = 0); [|lia].
      apply uint_inj_near; [exact Hz|lia]. }
    pose proof (uint_range (cons_e s - cons_w s)).
    rewrite uint_small; lia.
Qed.

(** The turns [line_edit] grants the kill-line loop suffice: when the
    loop is over its condition is false. *)
Lemma kill_loop_terminates (s : cons_t) :
  0 <= cons_e s < 2 ^ 32 ->
  0 <= cons_w s < 2 ^ 32 ->
  let s' := exec (kill_loop (Z.to_nat (uint (cons_e s - cons_w s)))) s in
  negb (cons_e s' =? cons_w s')
  && negb (buf_get s' (uint (cons_e s' - 1)) =? chr "010") = false.
Proof.
  intros He Hw. apply kill_loop_done; [exact He|exact Hw|].
  pose proof (uint_range (cons_e s - cons_w s)). lia.
Qed.

(** The loop of [consoleread] does the same with any number of turns
    from [n] on: it never stops for want of turns. *)
Lemma read_loop_fuel
    (x : extern) (fuel1 fuel2 : nat) (user_dst target dst n : Z) (s : cons_t) :
  (Z.to_nat n <= fuel1)%nat ->
  (Z.to_nat n <= fuel2)%nat ->
  read_loop x fuel1 user_dst target dst n s
  = read_loop x fuel2 user_dst target dst n s.
Proof.
  revert fuel2 dst n s.
  induction fuel1 as [|fuel1 IH]; intros [|fuel2] dst n s H1 H2;
    cbn [read_loop]; try reflexivity.
  - destruct (Z.gtb_spec n 0); [lia|reflexivity].
  - destruct (Z.gtb_spec n 0); [lia|reflexivity].
  - destruct (Z.gtb_spec n 0); [|reflexivity].
    unfold bind, get. cbn.
    destruct (cons_r s =? cons_w s); [reflexivity|].
    destruct ((buf_get s (cons_r s) =? C (chr "D")) && is_set ICANON s);
      [reflexivity|].
    destruct (negb (copyout_ok x user_dst dst 1)); [reflexivity|].
    destruct ((buf_get s (cons_r s) =? chr "010") && is_set ICANON s);
      [reflexivity|].
    rewrite (IH fuel2) by lia. reflexivity.
Qed.

(** ** The reader *)

(** With [n > 0] the loop of [consoleread] is entered. *)
Lemma read_loop_enter (n : Z) :
  0 < n ->
  exists fuel', Z.to_nat n = S fuel' /\ (n >? 0) = true.
Proof.
  intros Hn. exists (Nat.pred (Z.to_nat n)). split; lia.
Qed.

Ltac enter_read_loop Hn :=
  unfold consoleread, consoleread_wake;
  let fuel := fresh "fuel" in
  let Hfuel := fresh "Hfuel" in
  let Hgt := fresh "Hgt" in
  destruct (read_loop_enter _ Hn) as (fuel & Hfuel & Hgt);
  rewrite Hfuel; cbn [read_loop]; rewrite Hgt;
  unfold bind, get, modify, ret; cbn.

Lemma set_r_back (s : cons_t) :
  0 <= cons_r s < 2 ^ 32 ->
  set_r (uint (cons_r (set_r (uint (cons_r s + 1)) s) - 1))
        (set_r (uint (cons_r s + 1)) s) = s.
Proof.
  intros Hr. destruct s as [b r w e t]. unfold set_r. cbn in *.
  rewrite uint_sub_l. replace (r + 1 - 1) with r by lia.
  rewrite uint_small by lia. reflexivity.
Qed.

(** C6: when the buffer is empty ([cons.r == cons.w]) and the task is
    marked killed, [consoleread] returns -1: at its start, and at the
    head of its loop whatever it has copied before in this call (any
    [target], [dst] and [n > 0]).  [cons] is left as it is and nothing
    is copied. *)
Theorem consoleread_killed
    (x : extern) (user_dst target dst n : Z) (s : cons_t) :
  killed x = true ->
  cons_r s = cons_w s ->
  0 < n ->
  consoleread x user_dst dst n s = (Returned (-1), s, []) /\
  consoleread_wake x user_dst target dst n s = (Returned (-1), s, []).
Proof.
  intros Hk Hrw Hn. split; enter_read_loop Hn;
    rewrite Hrw, Z.eqb_refl, Hk; reflexivity.
Qed.

(** C5: canonical mode, the byte at [cons.r] is control-D.  A call that
    has copied nothing yet returns 0 and takes the byte off the buffer.
    A call that has copied [k > 0] bytes returns [k] and leaves [cons]
    as it is, the byte still at [cons.r].  Neither copies the byte. *)
Theorem consoleread_eof (x : extern) (user_dst dst : Z) (s : cons_t) :
  is_set ICANON s = true ->
  cons_r s <> cons_w s ->
  buf_get s (cons_r s) = C (chr "D") ->
  0 <= cons_r s < 2 ^ 32 ->
  (forall n, 0 < n ->
     consoleread x user_dst dst n s
     = (Returned 0, set_r (uint (cons_r s + 1)) s, []))
  /\
  (forall n0 k, 0 < k < n0 -> n0 < 2 ^ 31 ->
     consoleread_wake x user_dst (uint n0) dst (n0 - k) s
     = (Returned k, s, [])).
Proof.
  intros Hcanon Hrw Hbyte Hr.
  apply Z.eqb_neq in Hrw.
  assert (Hcan' : forall v, is_set ICANON (set_r v s) = true) by (intros; exact Hcanon).
  split.
  - intros n Hn. enter_read_loop Hn.
    rewrite Hrw, Hbyte, Z.eqb_refl, Hcanon. cbn.
    rewrite Z.ltb_irrefl. cbn.
    rewrite uint_sub_l, Z.sub_diag. reflexivity.
  - intros n0 k Hk Hn0.
    assert (Hn : 0 < n0 - k) by lia. enter_read_loop Hn.
    rewrite Hrw, Hbyte, Z.eqb_refl, Hcanon. cbn.
    assert (Hlt : (uint (n0 - k) <? uint n0) = true).
    { rewrite !uint_small by lia. apply Z.ltb_lt. lia. }
    rewrite Hlt. cbn.
    rewrite count_returned by lia.
    pose proof (set_r_back s Hr) as Hback. cbn in Hback. rewrite Hback.
    reflexivity.
Qed.

(** C10: the byte at [cons.r] is not an end-of-file mark and the copy to
    the destination fails.  A call that has copied nothing yet returns
    0; a call that is [k] bytes past its start with [n0] to fetch
    returns [k].  Either way [cons.r] has moved past the byte and is
    not taken back, and the byte is in no destination. *)
Theorem consoleread_copyout_fault
    (x : extern) (user_dst dst : Z) (s : cons_t) :
  cons_r s <> cons_w s ->
  (buf_get s (cons_r s) =? C (chr "D")) && is_set ICANON s = false ->
  copyout_ok x user_dst dst 1 = false ->
  (forall n, 0 < n ->
     consoleread x user_dst dst n s
     = (Returned 0, set_r (uint (cons_r s + 1)) s, []))
  /\
  (forall n0 k, 0 <= k < n0 -> n0 < 2 ^ 31 ->
     consoleread_wake x user_dst (uint n0) dst (n0 - k) s
     = (Returned k, set_r (uint (cons_r s + 1)) s, [])).
Proof.
  intros Hrw Heof Hfault.
  apply Z.eqb_neq in Hrw.
  split.
  - intros n Hn. enter_read_loop Hn.
    rewrite Hrw. cbn.
    change (is_set ICANON (set_r (uint (cons_r s + 1)) s)) with (is_set ICANON s).
    rewrite Heof, Hfault. cbn.
    rewrite uint_sub_l, Z.sub_diag. reflexivity.
  - intros n0 k Hk Hn0.
    assert (Hn : 0 < n0 - k) by lia. enter_read_loop Hn.
    rewrite Hrw. cbn.
    change (is_set ICANON (set_r (uint (cons_r s + 1)) s)) with (is_set ICANON s).
    rewrite Heof, Hfault. cbn.
    rewrite count_returned by lia. reflexivity.
Qed.

(** ** What holds after every run *)

Lemma inv_init : inv 0 cons_init.
Proof.
  split; [reflexivity|]. exists 0, 0. cbn. unfold INPUT_BUF.
  repeat split; lia.
Qed.

Lemma inv_mono (b b' : Z) (s : cons_t) : b <= b' -> inv b s -> inv b' s.
Proof.
  intros Hb (Hwe & R & E & HRE & HEb & Hcap & Hr & He).
  split; [exact Hwe|]. exists R, E. repeat split; try tauto; lia.
Qed.

Lemma exec_then_ret {A} (m : M A) (s : cons_t) :
  exec (m ;; ret tt) s = exec m s.
Proof.
  unfold exec, bind, ret. destruct (m s) as [[a s1] o1]. reflexivity.
Qed.

(** With [cons.e == cons.w] the loop of the kill-line case is not
    entered. *)
Lemma kill_loop_idle (fuel : nat) (s : cons_t) :
  cons_w s = cons_e s -> kill_loop fuel s = (tt, s, []).
Proof.
  intros Hwe. destruct fuel as [|fuel]; [reflexivity|].
  cbn [kill_loop]. unfold bind, get. cbn.
  rewrite Hwe, Z.eqb_refl. reflexivity.
Qed.

(** With [cons.e == cons.w] the [switch] erases nothing; all it can do
    is dump the process list. *)
Lemma line_edit_idle (c : Z) (s : cons_t) :
  cons_w s = cons_e s ->
  line_edit c s = (tt, s, if c =? C (chr "P") then [procdump] else []).
Proof.
  intros Hwe. unfold line_edit, bind, get. cbn.
  destruct (c =? C (chr "P")); [reflexivity|].
  destruct (c =? C (chr "U")); [rewrite kill_loop_idle by exact Hwe; reflexivity|].
  rewrite Hwe, Z.eqb_refl.
  destruct ((c =? C (chr "H")) || (c =? chr "127")); reflexivity.
Qed.

(** From a state with [cons.e == cons.w], [consoleintr] either appends
    and commits the character or leaves [cons] alone. *)
Lemma consoleintr_exec (c : Z) (s : cons_t) :
  cons_w s = cons_e s ->
  exec (consoleintr c) s =
    if negb (c =? 0) && (uint (cons_e s - cons_r s) <? INPUT_BUF) then
      set_w (uint (cons_e s + 1))
        (set_e (uint (cons_e s + 1)) (buf_set (cons_e s) (stored c) s))
    else s.
Proof.
  intros Hwe. unfold exec, consoleintr, bind, get. cbn.
  assert (Hedit : exists o,
    (if is_set ICANON s then line_edit c else ret tt) s = (tt, s, o)).
  { destruct (is_set ICANON s); [|eexists; reflexivity].
    eexists. apply line_edit_idle. exact Hwe. }
  destruct Hedit as [o ->].
  destruct (negb (c =? 0) && (uint (cons_e s - cons_r s) <? INPUT_BUF));
    [|reflexivity].
  fold (stored c).
  destruct (is_set ECHO s).
  - destruct ((consputc (stored c)) s) as [[u s'] o'] eqn:Hput.
    assert (s' = s) as ->.
    { unfold consputc in Hput. destruct (stored c =? BACKSPACE);
        unfold bind, emit in Hput; cbn in Hput; congruence. }
    unfold modify. cbn.
    match goal with |- context [if ?b then _ else _] => destruct b end;
      reflexivity.
  - unfold ret, modify. cbn.
    match goal with |- context [if ?b then _ else _] => destruct b end;
      reflexivity.
Qed.

Lemma consoleintr_inv (b c : Z) (s : cons_t) :
  inv b s -> inv (b + 1) (exec (consoleintr c) s).
Proof.
  intros Hinv. pose proof Hinv as (Hwe & R & E & HRE & HEb & Hcap & Hr & He).
  rewrite consoleintr_exec by exact Hwe.
  destruct (negb (c =? 0)); cbn [andb];
    [|apply inv_mono with b; [lia|exact Hinv]].
  destruct (Z.ltb_spec (uint (cons_e s - cons_r s)) INPUT_BUF) as [Hroom|Hfull];
    [|apply inv_mono with b; [lia|exact Hinv]].
  split; [reflexivity|]. exists R, (E + 1). cbn.
  rewrite He, Hr, uint_sub_l, uint_sub_r in Hroom.
  unfold INPUT_BUF in *. rewrite uint_small in Hroom by lia.
  rewrite Hr, He, uint_add_l. repeat split; lia.
Qed.

(** A stretch of [consoleread] moves [cons.r] only, and never past
    [cons.w]. *)
Lemma read_loop_inv
    (x : extern) (fuel : nat) (user_dst target dst n b : Z) (s : cons_t) :
  inv b s -> inv b (exec (read_loop x fuel user_dst target dst n) s).
Proof.
  revert dst n s. induction fuel as [|fuel IH]; intros dst n s Hinv;
    [exact Hinv|].
  pose proof Hinv as (Hwe & R & E & HRE & HEb & Hcap & Hr & He).
  unfold exec. cbn [read_loop].
  destruct (n >? 0); [|exact Hinv].
  unfold bind, get. cbn.
  destruct (Z.eqb_spec (cons_r s) (cons_w s)) as [Hempty|Hsome].
  { destruct (killed x); exact Hinv. }
  assert (HRlt : R < E).
  { assert (R <> E) by (intros ->; congruence). lia. }
  assert (Hpop : inv b (set_r (uint (cons_r s + 1)) s)).
  { split; [exact Hwe|]. exists (R + 1), E. cbn.
    rewrite Hr, uint_add_l. repeat split; lia. }
  destruct ((buf_get s (cons_r s) =? C (chr "D")) && is_set ICANON s).
  { destruct (uint n <? target); cbn; [|exact Hpop].
    rewrite uint_sub_l. replace (cons_r s + 1 - 1) with (cons_r s) by lia.
    split; [exact Hwe|]. exists R, E. cbn.
    rewrite Hr, uint_idem. repeat split; lia. }
  destruct (negb (copyout_ok x user_dst dst 1)); [exact Hpop|].
  destruct ((buf_get s (cons_r s) =? chr "010") && is_set ICANON s);
    [exact Hpop|].
  specialize (IH (uint64 (dst + 1)) (n - 1) _ Hpop). unfold exec in IH.
  destruct (read_loop x fuel user_dst target (uint64 (dst + 1)) (n - 1)
              (set_r (uint (cons_r s + 1)) s)) as [[v s'] o'].
  exact IH.
Qed.

(** [consoleread] assigns to [cons.r] and to nothing else. *)
Lemma read_loop_frame
    (x : extern) (fuel : nat) (user_dst target dst n : Z) (s : cons_t) :
  exists v, exec (read_loop x fuel user_dst target dst n) s = set_r v s.
Proof.
  assert (Hid : s = set_r (cons_r s) s) by (destruct s; reflexivity).
  revert dst n s Hid. induction fuel as [|fuel IH]; intros dst n s Hid;
    [exists (cons_r s); exact Hid|].
  unfold exec. cbn [read_loop].
  destruct (n >? 0); [|exists (cons_r s); exact Hid].
  unfold bind, get. cbn.
  destruct (cons_r s =? cons_w s).
  { destruct (killed x); exists (cons_r s); exact Hid. }
  destruct ((buf_get s (cons_r s) =? C (chr "D")) && is_set ICANON s).
  { destruct (uint n <? target); eexists; reflexivity. }
  destruct (negb (copyout_ok x user_dst dst 1)); [eexists; reflexivity|].
  destruct ((buf_get s (cons_r s) =? chr "010") && is_set ICANON s);
    [eexists; reflexivity|].
  destruct (IH (uint64 (dst + 1)) (n - 1) (set_r (uint (cons_r s + 1)) s)
              eq_refl) as [v Hv].
  unfold exec in Hv.
  destruct (read_loop x fuel user_dst target (uint64 (dst + 1)) (n - 1)
              (set_r (uint (cons_r s + 1)) s)) as [[v' s'] o'].
  exists v. exact Hv.
Qed.

Lemma read_loop_edit
    (x : extern) (fuel : nat) (user_dst target dst n : Z) (s : cons_t) :
  cons_e (exec (read_loop x fuel user_dst target dst n) s) = cons_e s.
Proof.
  destruct (read_loop_frame x fuel user_dst target dst n s) as [v ->].
  reflexivity.
Qed.

Lemma write_loop_exec
    (x : extern) (fuel : nat) (user_src src i : Z) (s : cons_t) :
  exec (write_loop x fuel user_src src i) s = s.
Proof.
  revert i. induction fuel as [|fuel IH]; intros i; [reflexivity|].
  unfold exec in *. cbn [write_loop].
  destruct (copyin_ok x user_src (uint64 (src + i)) 1); [|reflexivity].
  unfold bind, emit. cbn. specialize (IH (i + 1)).
  destruct (write_loop x fuel user_src src (i + 1) s) as [[v s'] o'].
  exact IH.
Qed.

Lemma step_inv (x : extern) (k : call) (b : Z) (s : cons_t) :
  inv b s -> inv (b + 1) (exec (step x k) s).
Proof.
  intros Hinv. destruct k as [c|u d n|u t d n|u src n|req p]; cbn [step].
  - apply consoleintr_inv. exact Hinv.
  - rewrite exec_then_ret. apply inv_mono with b; [lia|].
    apply read_loop_inv. exact Hinv.
  - rewrite exec_then_ret. apply inv_mono with b; [lia|].
    apply read_loop_inv. exact Hinv.
  - rewrite exec_then_ret. unfold consolewrite. rewrite write_loop_exec.
    apply inv_mono with b; [lia|exact Hinv].
  - rewrite exec_then_ret, consoleioctl_exec.
    apply inv_mono with b; [lia|exact Hinv].
Qed.

Lemma run_from_inv (tr : list (extern * call)) (b : Z) (s : cons_t) :
  inv b s -> inv (b + Z.of_nat (length tr)) (run_from s tr).
Proof.
  revert b s. induction tr as [|[x k] tr IH]; intros b s Hinv.
  - cbn. rewrite Z.add_0_r. exact Hinv.
  - cbn [run_from length].
    replace (b + Z.of_nat (S (length tr)))
      with ((b + 1) + Z.of_nat (length tr)) by lia.
    apply IH, step_inv. exact Hinv.
Qed.

Lemma run_inv (tr : list (extern * call)) :
  inv (Z.of_nat (length tr)) (run tr).
Proof. apply (run_from_inv tr 0). exact inv_init. Qed.

(** No call assigns to [cons.termios] or changes the size of the
    buffer. *)
Lemma step_keeps (x : extern) (k : call) (s : cons_t) :
  cons_w s = cons_e s ->
  cons_termios (exec (step x k) s) = cons_termios s /\
  length (cons_buf (exec (step x k) s)) = length (cons_buf s).
Proof.
  intros Hwe. destruct k as [c|u d n|u t d n|u src n|req p]; cbn [step].
  - rewrite consoleintr_exec by exact Hwe.
    destruct (negb (c =? 0) && (uint (cons_e s - cons_r s) <? INPUT_BUF));
      [|split; reflexivity].
    split; [reflexivity|]. cbn. apply length_insert.
  - rewrite exec_then_ret. unfold consoleread.
    destruct (read_loop_frame x (Z.to_nat n) u (uint n) d n s) as [v ->].
    split; reflexivity.
  - rewrite exec_then_ret. unfold consoleread_wake.
    destruct (read_loop_frame x (Z.to_nat n) u t d n s) as [v ->].
    split; reflexivity.
  - rewrite exec_then_ret. unfold consolewrite. rewrite write_loop_exec.
    split; reflexivity.
  - rewrite exec_then_ret, consoleioctl_exec. split; reflexivity.
Qed.

Lemma run_from_keeps (tr : list (extern * call)) (b : Z) (s : cons_t) :
  inv b s ->
  cons_termios (run_from s tr) = cons_termios s /\
  length (cons_buf (run_from s tr)) = length (cons_buf s).
Proof.
  revert b s. induction tr as [|[x k] tr IH]; intros b s Hinv;
    [split; reflexivity|].
  cbn [run_from].
  destruct (step_keeps x k s (proj1 Hinv)) as [Ht Hl].
  destruct (IH _ _ (step_inv x k b s Hinv)) as [Ht' Hl'].
  split; congruence.
Qed.

(** The mode set by [consoleinit] stays for good: no sequence of calls,
    [consoleioctl] with [TCSETA] included, changes [cons.termios]. *)
Lemma run_termios (tr : list (extern * call)) :
  cons_termios (run tr) = {| c_lflag := Z.lor ECHO ICANON |}.
Proof.
  destruct (run_from_keeps tr 0 cons_init inv_init) as [Ht _]. exact Ht.
Qed.

Lemma run_buf_length (tr : list (extern * call)) :
  length (cons_buf (run tr)) = Z.to_nat INPUT_BUF.
Proof.
  destruct (run_from_keeps tr 0 cons_init inv_init) as [_ Hl].
  unfold run. rewrite Hl. reflexivity.
Qed.

(** After any run, a character other than 0 that finds room is stored
    at the edit index, the characters the [switch] has a case for
    (backspace, DEL, control-U, control-P) like all others. *)
Lemma consoleintr_stores (tr : list (extern * call)) (c : Z) :
  let s := run tr in
  c <> 0 ->
  uint (cons_e s - cons_r s) < INPUT_BUF ->
  cons_e (exec (consoleintr c) s) = uint (cons_e s + 1) /\
  buf_get (exec (consoleintr c) s) (cons_e s) = to_char (stored c).
Proof.
  cbn zeta. intros Hc Hroom.
  destruct (run_inv tr) as (Hwe & _).
  rewrite consoleintr_exec by exact Hwe.
  apply Z.eqb_neq in Hc. apply Z.ltb_lt in Hroom. rewrite Hc, Hroom.
  split; [reflexivity|]. unfold buf_get. cbn.
  apply list_lookup_total_insert_eq. rewrite run_buf_length.
  pose proof (Z.mod_pos_bound (cons_e (run tr)) INPUT_BUF ltac:(reflexivity)).
  lia.
Qed.

(** C1: after initialisation and any sequence of calls the stored
    indices are the 32-bit images of unbounded counters with
    read <= committed <= edit and edit - read <= INPUT_BUF (the edit
    counter is at most the number of calls made); the difference
    [cons.e - cons.r] the driver computes is at most [INPUT_BUF]. *)
Theorem counters_ordered (tr : list (extern * call)) :
  let s := run tr in
  uint (cons_e s - cons_r s) <= INPUT_BUF /\
  exists R W E : Z,
    cons_r s = uint R /\ cons_w s = uint W /\ cons_e s = uint E /\
    0 <= R /\ R <= W /\ W <= E /\ E - R <= INPUT_BUF /\
    E <= Z.of_nat (length tr).
Proof.
  destruct (run_inv tr) as (Hwe & R & E & HRE & HEb & Hcap & Hr & He).
  cbn zeta. split.
  - rewrite Hr, He, uint_sub_l, uint_sub_r.
    unfold INPUT_BUF in *. rewrite uint_small; lia.
  - exists R, E, E. rewrite Hwe. repeat split; try assumption; lia.
Qed.

(** Until 2^32 calls have been made nothing has wrapped, and the stored
    indices themselves are in order. *)
Lemma indices_before_wrap (tr : list (extern * call)) :
  Z.of_nat (length tr) < 2 ^ 32 ->
  cons_r (run tr) <= cons_w (run tr) <= cons_e (run tr) /\
  cons_e (run tr) - cons_r (run tr) <= INPUT_BUF.
Proof.
  intros Hshort.
  destruct (run_inv tr) as (Hwe & R & E & HRE & HEb & Hcap & Hr & He).
  rewrite Hwe, Hr, He, !uint_small by lia. lia.
Qed.

(** An accepted character is followed by a wakeup. *)
Lemma consoleintr_wakes (c : Z) (s : cons_t) :
  cons_w s = cons_e s ->
  negb (c =? 0) && (uint (cons_e s - cons_r s) <? INPUT_BUF) = true ->
  exists o, output (consoleintr c) s = o ++ [wakeup].
Proof.
  intros Hwe Hacc. unfold output, consoleintr, bind, get. cbn.
  assert (Hedit : exists o,
    (if is_set ICANON s then line_edit c else ret tt) s = (tt, s, o)).
  { destruct (is_set ICANON s); [|eexists; reflexivity].
    eexists. apply line_edit_idle. exact Hwe. }
  destruct Hedit as [o ->]. rewrite Hacc. fold (stored c).
  assert (Hecho : exists o',
    (if is_set ECHO s then consputc (stored c) else ret tt) s = (tt, s, o')).
  { destruct (is_set ECHO s); [|eexists; reflexivity].
    unfold consputc. destruct (stored c =? BACKSPACE); eexists; reflexivity. }
  destruct Hecho as [o' ->]. unfold modify, emit. cbn.
  exists (o ++ o').
  match goal with |- context [if ?b then _ else _] => destruct b end;
    cbn; apply (assoc_L (++)).
Qed.

(** C9: after every run [cons.w == cons.e], whatever the mode.  So the
    [switch] of [consoleintr] finds nothing to erase (it leaves [cons]
    alone and emits no erase sequence), a character that is accepted is
    committed and followed by a wakeup, and no call takes [cons.e]
    back: it stays or moves one up. *)
Theorem committed_is_edit
    (tr : list (extern * call)) (x : extern) (k : call) (c : Z) :
  let s := run tr in
  cons_w s = cons_e s /\
  line_edit c s = (tt, s, if c =? C (chr "P") then [procdump] else []) /\
  (negb (c =? 0) && (uint (cons_e s - cons_r s) <? INPUT_BUF) = true ->
   cons_w (exec (consoleintr c) s) = uint (cons_e s + 1) /\
   exists o, output (consoleintr c) s = o ++ [wakeup]) /\
  (cons_e (exec (step x k) s) = cons_e s \/
   cons_e (exec (step x k) s) = uint (cons_e s + 1)).
Proof.
  destruct (run_inv tr) as (Hwe & _). cbn zeta.
  split; [exact Hwe|]. split; [apply line_edit_idle; exact Hwe|]. split.
  - intros Hacc. split; [|apply consoleintr_wakes; assumption].
    rewrite consoleintr_exec, Hacc by exact Hwe. reflexivity.
  - destruct k as [c'|u d n|u t d n|u src n|req p]; cbn [step].
    + rewrite consoleintr_exec by exact Hwe.
      destruct (negb (c' =? 0) && (uint (cons_e (run tr) - cons_r (run tr)) <? INPUT_BUF));
        [right|left]; reflexivity.
    + left. rewrite exec_then_ret. apply read_loop_edit.
    + left. rewrite exec_then_ret. apply read_loop_edit.
    + left. rewrite exec_then_ret. unfold consolewrite.
      rewrite write_loop_exec. reflexivity.
    + left. rewrite exec_then_ret, consoleioctl_exec. reflexivity.
Qed.

End Properties.

(** ** The driver at work *)

Section Evaluation.
#[local] Existing Instance usual_headers.

(** C2: a, b, DEL, c, newline are typed in canonical mode.  DEL finds
    [cons.e == cons.w], erases nothing, and is stored like any other
    character: a read of 3 bytes gets a, b, DEL, and a read of 5 gets
    the five bytes typed, not a, c, newline. *)
Theorem backspace_is_stored :
  is_set ICANON after_erased = true /\
  consoleread calm 0 0x1000 3 after_erased
  = (Returned 3, set_r 3 after_erased,
     [copied_out 0 0x1000 (chr "a"); copied_out 0 0x1001 (chr "b");
      copied_out 0 0x1002 (chr "127")]) /\
  value (consoleread calm 0 0x1000 5) after_erased = Returned 5 /\
  delivered (output (consoleread calm 0 0x1000 5) after_erased)
  = line_erased.
Proof. vm_compute. repeat split. Qed.

(** The same with a space between DEL and c. *)
Example backspace_is_stored_spaced :
  value (consoleread calm 0 0x1000 3) after_erased_spaced = Returned 3 /\
  delivered (output (consoleread calm 0 0x1000 3) after_erased_spaced)
  = [chr "a"; chr "b"; chr "127"] /\
  delivered (output (consoleread calm 0 0x1000 16) after_erased_spaced)
  = line_erased_spaced.
Proof. vm_compute. repeat split. Qed.

(** DEL at work: nothing erased, DEL echoed and stored. *)
Example backspace_at_work :
  consoleintr (chr "127") ab_typed
  = (tt,
     set_w 3 (set_e 3 (buf_set 2 (chr "127") ab_typed)),
     [uartputc_sync (chr "127"); wakeup]).
Proof. vm_compute. reflexivity. Qed.

(** C3: hello, control-U, hi, newline are typed in canonical mode.
    Control-U finds [cons.e == cons.w], kills nothing, and is stored:
    the read gets the nine bytes typed, not h, i, newline. *)
Theorem kill_line_is_stored :
  is_set ICANON after_killed = true /\
  value (consoleread calm 0 0x1000 128) after_killed = Returned 9 /\
  delivered (output (consoleread calm 0 0x1000 128) after_killed)
  = line_killed /\
  delivered (output (consoleread calm 0 0x1000 3) after_killed)
  = [chr "h"; chr "e"; chr "l"].
Proof. vm_compute. repeat split. Qed.

(** C4: [consoleioctl] with [TCSETA] and a caller whose [struct termios]
    asks for raw mode without echo: the call returns 0, yet
    [cons.termios] is what [consoleinit] made it, and the next
    character is echoed as before. *)
Theorem tcseta_not_stored :
  user_termios calm 0x3000 = {| c_lflag := 0 |} /\
  consoleioctl calm TCSETA 0x3000 cons_init = (0, cons_init, []) /\
  cons_termios cons_init = {| c_lflag := Z.lor ECHO ICANON |} /\
  cons_termios cons_init <> user_termios calm 0x3000 /\
  output (consoleintr (chr "a")) (exec (consoleioctl calm TCSETA 0x3000) cons_init)
  = [uartputc_sync (chr "a"); wakeup].
Proof. vm_compute. repeat split. discriminate. Qed.

(** [TCGETA], the other way round, copies [cons.termios] out. *)
Example tcgeta_copies_out :
  consoleioctl calm TCGETA 0x3000 cons_init
  = (0, cons_init, [copied_termios 0x3000 {| c_lflag := Z.lor ECHO ICANON |}]).
Proof. vm_compute. reflexivity. Qed.

(** Control-D after a, b: the first call gets a, b and leaves control-D
    where it is, the second call gets nothing and takes it. *)
Example eof_two_calls :
  consoleread calm 0 0x1000 8 ab_eof_typed
  = (Returned 2, eof_next,
     [copied_out 0 0x1000 (chr "a"); copied_out 0 0x1001 (chr "b")]) /\
  consoleread calm 0 0x1000 8 eof_next
  = (Returned 0, set_r 3 ab_eof_typed, []).
Proof. vm_compute. split; reflexivity. Qed.

(** A killed task reads a, b and finds the buffer empty: -1, with a, b
    at the destination. *)
Example killed_after_copy :
  consoleread doomed 0 0x1000 5 ab_typed
  = (Returned (-1), set_r 2 ab_typed,
     [copied_out 0 0x1000 (chr "a"); copied_out 0 0x1001 (chr "b")]).
Proof. vm_compute. reflexivity. Qed.

(** In canonical mode a read of a partial line goes to sleep after the
    bytes it found, and goes on when woken. *)
Example sleeps_on_partial_line :
  value (consoleread calm 0 0x1000 5) ab_typed = Asleep 5 0x1002 3.
Proof. vm_compute. reflexivity. Qed.

Lemma consoleread_eof_witness :
  (is_set ICANON eof_next = true /\
   cons_r eof_next <> cons_w eof_next /\
   buf_get eof_next (cons_r eof_next) = C (chr "D") /\
   0 <= cons_r eof_next < 2 ^ 32) /\
  consoleread calm 0 0x1000 8 eof_next
  = (Returned 0, set_r (uint (cons_r eof_next + 1)) eof_next, []) /\
  consoleread_wake calm 0 (uint 8) 0x1002 (8 - 2) eof_next
  = (Returned 2, eof_next, []).
Proof.
  assert (H1 : is_set ICANON eof_next = true) by reflexivity.
  assert (H2 : cons_r eof_next <> cons_w eof_next) by (vm_compute; discriminate).
  assert (H3 : buf_get eof_next (cons_r eof_next) = C (chr "D")) by reflexivity.
  assert (H4 : 0 <= cons_r eof_next < 2 ^ 32) by (vm_compute; split; [discriminate|reflexivity]).
  split; [exact (conj H1 (conj H2 (conj H3 H4)))|].
  split.
  - apply (proj1 (consoleread_eof calm 0 0x1000 eof_next H1 H2 H3 H4)). lia.
  - apply (proj2 (consoleread_eof calm 0 0x1002 eof_next H1 H2 H3 H4)); lia.
Defined.

Lemma consoleread_killed_witness :
  (killed doomed = true /\ cons_r cons_init = cons_w cons_init /\ 0 < 5) /\
  consoleread doomed 0 0x1000 5 cons_init = (Returned (-1), cons_init, []) /\
  consoleread_wake doomed 0 8 0x1000 5 cons_init
  = (Returned (-1), cons_init, []).
Proof.
  split; [repeat split; lia|].
  apply consoleread_killed; [reflexivity|reflexivity|lia].
Defined.

Lemma consoleintr_full_drops_witness :
  (chr "x" <> 0 /\ editing (chr "x") = false /\
   uint (cons_e full_cons - cons_r full_cons) = INPUT_BUF) /\
  consoleintr (chr "x") full_cons = (tt, full_cons, []).
Proof.
  split; [split; [discriminate|split; vm_compute; reflexivity]|].
  apply consoleintr_full_drops;
    [discriminate|reflexivity|vm_compute; reflexivity].
Defined.

Lemma consoleioctl_unknown_request_witness :
  (0 <> TCGETA /\ 0 <> TCSETA) /\
  consoleioctl calm 0 0x3000 cons_init = (-1, cons_init, []).
Proof.
  split; [split; discriminate|].
  apply consoleioctl_unknown_request; discriminate.
Defined.

Lemma consoleread_copyout_fault_witness :
  (cons_r ab_typed <> cons_w ab_typed /\
   (buf_get ab_typed (cons_r ab_typed) =? C (chr "D"))
   && is_set ICANON ab_typed = false /\
   copyout_ok faulting 0 0x1000 1 = false) /\
  consoleread faulting 0 0x1000 5 ab_typed
  = (Returned 0, set_r (uint (cons_r ab_typed + 1)) ab_typed, []) /\
  consoleread_wake faulting 0 (uint 5) 0x1000 (5 - 1) ab_typed
  = (Returned 1, set_r (uint (cons_r ab_typed + 1)) ab_typed, []).
Proof.
  assert (H1 : cons_r ab_typed <> cons_w ab_typed) by (vm_compute; discriminate).
  assert (H2 : (buf_get ab_typed (cons_r ab_typed) =? C (chr "D"))
               && is_set ICANON ab_typed = false) by reflexivity.
  assert (H3 : copyout_ok faulting 0 0x1000 1 = false) by reflexivity.
  split; [exact (conj H1 (conj H2 H3))|].
  split.
  - apply (proj1 (consoleread_copyout_fault faulting 0 0x1000 ab_typed H1 H2 H3)).
    lia.
  - apply (proj2 (consoleread_copyout_fault faulting 0 0x1000 ab_typed H1 H2 H3));
      lia.
Defined.

End Evaluation.

(** ** consolewrite *)

Section Writer.
Context {H : Headers}.

Lemma write_loop_upto
    (x : extern) (fuel : nat) (user_src src i : Z) (s : cons_t) :
  exists k,
    i <= k <= i + Z.of_nat fuel /\
    (forall j, i <= j < k -> copyin_ok x user_src (uint64 (src + j)) 1 = true) /\
    (k < i + Z.of_nat fuel -> copyin_ok x user_src (uint64 (src + k)) 1 = false) /\
    write_loop x fuel user_src src i s
    = (k, s, map (fun j => uartputc (user_byte x user_src (uint64 (src + j))))
                 (seqZ i (k - i))).
Proof.
  revert i. induction fuel as [|fuel IH]; intros i.
  - exists i. repeat split; try lia.
    rewrite Z.sub_diag. reflexivity.
  - cbn [write_loop].
    destruct (copyin_ok x user_src (uint64 (src + i)) 1) eqn:Hok.
    + destruct (IH (i + 1)) as (k & Hk & Hall & Hstop & Hrun).
      exists k. split; [lia|]. split; [|split].
      * intros j Hj. destruct (Z.eq_dec j i) as [->|Hne]; [exact Hok|].
        apply Hall. lia.
      * intros Hlt. apply Hstop. lia.
      * unfold bind, emit. rewrite Hrun. cbn.
        rewrite (seqZ_cons i (k - i)) by lia. cbn.
        replace (Z.succ i) with (i + 1) by lia.
        replace (Z.pred (k - i)) with (k - (i + 1)) by lia. reflexivity.
    + exists i. split; [lia|]. split; [intros j Hj; lia|]. split.
      * intros _. exact Hok.
      * rewrite Z.sub_diag. reflexivity.
Qed.

(** X1: [consolewrite] sends the bytes of the source in order up to the
    first address that cannot be read, or [n] bytes if there is none;
    it returns how many it sent ([0] for [n <= 0]) and leaves [cons]
    as it is. *)
Theorem consolewrite_upto (x : extern) (user_src src n : Z) (s : cons_t) :
  exists k,
    0 <= k <= Z.max 0 n /\
    (forall j, 0 <= j < k -> copyin_ok x user_src (uint64 (src + j)) 1 = true) /\
    (k < n -> copyin_ok x user_src (uint64 (src + k)) 1 = false) /\
    consolewrite x user_src src n s = (k, s, written x user_src src k).
Proof.
  unfold consolewrite, written.
  destruct (write_loop_upto x (Z.to_nat n) user_src src 0 s)
    as (k & Hk & Hall & Hstop & Hrun).
  exists k. split; [lia|]. split; [exact Hall|]. split.
  - intros Hlt. apply Hstop. lia.
  - rewrite Hrun, Z.sub_0_r. reflexivity.
Qed.

End Writer.

(** ** The mode *)

Section Modes.
Context {H : Headers}.

Lemma land_lor_same_r (a b : Z) : Z.land (Z.lor a b) b = b.
Proof.
  apply Z.bits_inj'. intros n Hn.
  rewrite Z.land_spec, Z.lor_spec.
  destruct (Z.testbit a n), (Z.testbit b n); reflexivity.
Qed.

Lemma land_lor_same_l (a b : Z) : Z.land (Z.lor a b) a = a.
Proof. rewrite Z.lor_comm. apply land_lor_same_r. Qed.

(** X2: the character 0 is ignored: in every state and either mode
    [consoleintr(0)] leaves [cons] as it is and emits nothing. *)
Theorem consoleintr_nul (s : cons_t) : consoleintr 0 s = (tt, s, []).
Proof.
  unfold consoleintr, bind, get. cbn.
  assert (Hedit : (if is_set ICANON s then line_edit 0 else ret tt) s = (tt, s, [])).
  { destruct (is_set ICANON s); reflexivity. }
  rewrite Hedit. reflexivity.
Qed.

(** X3: the mode is fixed.  After [consoleinit] and any sequence of
    calls, [consoleioctl] with [TCSETA] among them, [cons.termios] is
    [ECHO | ICANON]: the console is canonical whenever [ICANON] is not
    0, and echoes whenever [ECHO] is not 0. *)
Theorem mode_is_fixed (tr : list (extern * call)) :
  cons_termios (run tr) = {| c_lflag := Z.lor ECHO ICANON |} /\
  is_set ICANON (run tr) = negb (ICANON =? 0) /\
  is_set ECHO (run tr) = negb (ECHO =? 0).
Proof.
  pose proof (run_termios tr) as Ht. split; [exact Ht|].
  unfold is_set. rewrite Ht. cbn.
  rewrite land_lor_same_r, land_lor_same_l. split; reflexivity.
Qed.

(** X4: [consoleioctl] with [TCGETA], when the caller's address can be
    written, returns 0 and copies out [cons.termios], which after any
    sequence of calls is the mode [consoleinit] set; [cons] is left as
    it is.  When the address cannot be written it returns -1 and
    copies nothing. *)
Theorem tcgeta_reports (tr : list (extern * call)) (x : extern) (ttyctl : Z) :
  consoleioctl x TCGETA ttyctl (run tr)
  = if copyout_ok x 1 ttyctl (sizeof_termios x)
    then (0, run tr, [copied_termios ttyctl {| c_lflag := Z.lor ECHO ICANON |}])
    else (-1, run tr, []).
Proof.
  unfold consoleioctl. rewrite Z.eqb_refl. cbn.
  unfold bind, get. cbn. rewrite run_termios.
  destruct (copyout_ok x 1 ttyctl (sizeof_termios x)); reflexivity.
Qed.

End Modes.

(** ** The kill-line case *)

Section KillLine.
Context {H : Headers}.

Lemma set_e_same (s : cons_t) :
  0 <= cons_e s < 2 ^ 32 -> set_e (uint (cons_e s - 0)) s = s.
Proof.
  intros He. rewrite Z.sub_0_r, uint_small by exact He.
  destruct s; reflexivity.
Qed.

Lemma uint_pred_diff (e w : Z) :
  0 <= e < 2 ^ 32 -> 0 <= w < 2 ^ 32 -> e <> w ->
  uint (uint (e - 1) - w) = uint (e - w) - 1.
Proof.
  intros He Hw Hne. rewrite uint_sub_l.
  replace (e - 1 - w) with (e - w - 1) by lia. rewrite <- uint_sub_l.
  assert (uint (e - w) <> 0).
  { intros Hz. apply Hne. assert (e - w = 0); [|lia].
    apply uint_inj_near; [exact Hz|lia]. }
  pose proof (uint_range (e - w)). apply uint_small. lia.
Qed.

Lemma kill_loop_erases (fuel : nat) (s : cons_t) :
  0 <= cons_e s < 2 ^ 32 ->
  0 <= cons_w s < 2 ^ 32 ->
  uint (cons_e s - cons_w s) <= Z.of_nat fuel ->
  exists k : nat,
    Z.of_nat k <= uint (cons_e s - cons_w s) /\
    kill_loop fuel s
    = (tt, set_e (uint (cons_e s - Z.of_nat k)) s, concat (replicate k erase_seq)) /\
    (forall i, 1 <= i <= Z.of_nat k -> buf_get s (uint (cons_e s - i)) <> chr "010") /\
    (Z.of_nat k = uint (cons_e s - cons_w s)
     \/ buf_get s (uint (cons_e s - Z.of_nat k - 1)) = chr "010").
Proof.
  revert s. induction fuel as [|fuel IH]; intros s He Hw Hfuel.
  - pose proof (uint_range (cons_e s - cons_w s)).
    exists O. split; [cbn; lia|]. split; [|split].
    + cbn [kill_loop Z.of_nat]. rewrite set_e_same by exact He. reflexivity.
    + intros i Hi. cbn in Hi. lia.
    + left. cbn. lia.
  - cbn [kill_loop]. unfold bind, get. cbn.
    destruct (Z.eqb_spec (cons_e s) (cons_w s)) as [Heq|Hne]; cbn [negb andb].
    { exists O. split; [pose proof (uint_range (cons_e s - cons_w s)); cbn; lia|].
      split; [|split].
      - cbn [Z.of_nat]. rewrite set_e_same by exact He. reflexivity.
      - intros i Hi. cbn in Hi. lia.
      - left. rewrite Heq, Z.sub_diag. reflexivity. }
    destruct (Z.eqb_spec (buf_get s (uint (cons_e s - 1))) (chr "010"))
      as [Hnl|Hnot]; cbn [negb].
    { exists O. split; [pose proof (uint_range (cons_e s - cons_w s)); cbn; lia|].
      split; [|split].
      - cbn [Z.of_nat]. rewrite set_e_same by exact He. reflexivity.
      - intros i Hi. cbn in Hi. lia.
      - right. cbn [Z.of_nat]. rewrite Z.sub_0_r. exact Hnl. }
    pose proof (uint_pred_diff _ _ He Hw Hne) as Hpred.
    destruct (IH (set_e (uint (cons_e s - 1)) s)) as (k & Hk & Hrun & Hbytes & Hend).
    { apply uint_range. }
    { exact Hw. }
    { cbn. rewrite Hpred. lia. }
    cbn in Hk, Hrun, Hbytes, Hend. rewrite Hpred in Hk, Hend.
    exists (S k). split; [lia|]. split; [|split].
    + rewrite Hrun. cbn. unfold set_e. cbn.
      rewrite uint_sub_l.
      replace (cons_e s - 1 - Z.of_nat k) with (cons_e s - Z.of_nat (S k)) by lia.
      reflexivity.
    + intros i Hi. destruct (Z.eq_dec i 1) as [->|Hi1]; [exact Hnot|].
      specialize (Hbytes (i - 1) ltac:(lia)).
      unfold buf_get in Hbytes |- *. cbn in Hbytes.
      rewrite uint_sub_l in Hbytes.
      replace (cons_e s - 1 - (i - 1)) with (cons_e s - i) in Hbytes by lia.
      exact Hbytes.
    + destruct Hend as [Hall|Hnl]; [left; lia|right].
      unfold buf_get in Hnl |- *. cbn in Hnl.
      replace (uint (cons_e s - 1) - Z.of_nat k - 1)
        with (uint (cons_e s - 1) - (Z.of_nat k + 1)) in Hnl by lia.
      rewrite uint_sub_l in Hnl.
      replace (cons_e s - 1 - (Z.of_nat k + 1))
        with (cons_e s - Z.of_nat (S k) - 1) in Hnl by lia.
      exact Hnl.
Qed.

(** X5: the kill-line case, entered with any indices.  Control-U takes
    [cons.e] back by some [k] places, never past [cons.w], and touches
    nothing else; it sends one erase sequence per place.  None of the
    [k] bytes given up is a newline, and the loop stops because
    [cons.e] has met [cons.w] or because the byte before it is a
    newline. *)
Theorem kill_line_erases (s : cons_t) :
  0 <= cons_e s < 2 ^ 32 ->
  0 <= cons_w s < 2 ^ 32 ->
  exists k : nat,
    Z.of_nat k <= uint (cons_e s - cons_w s) /\
    line_edit (C (chr "U")) s
    = (tt, set_e (uint (cons_e s - Z.of_nat k)) s, concat (replicate k erase_seq)) /\
    (forall i, 1 <= i <= Z.of_nat k -> buf_get s (uint (cons_e s - i)) <> chr "010") /\
    (Z.of_nat k = uint (cons_e s - cons_w s)
     \/ buf_get s (uint (cons_e s - Z.of_nat k - 1)) = chr "010").
Proof.
  intros He Hw.
  destruct (kill_loop_erases (Z.to_nat (uint (cons_e s - cons_w s))) s He Hw)
    as (k & Hk & Hrun & Hbytes & Hend).
  { pose proof (uint_range (cons_e s - cons_w s)). lia. }
  exists k. split; [exact Hk|]. split; [|split; assumption].
  unfold line_edit, bind, get. cbn.
  change (C (chr "U") =? C (chr "P")) with false.
  change (C (chr "U") =? C (chr "U")) with true.
  cbn iota. rewrite Hrun. reflexivity.
Qed.

End KillLine.

(** ** The buffer as a queue *)

Section Queue.
Context {H : Headers}.

Lemma buf_get_uint (s : cons_t) (x : Z) : buf_get s (uint x) = buf_get s x.
Proof.
  unfold buf_get, uint, INPUT_BUF. f_equal. f_equal.
  apply Z.mod_mod_divide. exists (2 ^ 25). reflexivity.
Qed.

Lemma length_pending (s : cons_t) :
  length (pending s) = Z.to_nat (uint (cons_w s - cons_r s)).
Proof. unfold pending. rewrite length_map, length_seq. reflexivity. Qed.

Lemma pending_empty (s : cons_t) : cons_r s = cons_w s -> pending s = [].
Proof. intros Hrw. unfold pending. rewrite Hrw, Z.sub_diag. reflexivity. Qed.

Lemma uint_diff_zero (r w : Z) :
  0 <= r < 2 ^ 32 -> 0 <= w < 2 ^ 32 -> uint (w - r) = 0 -> r = w.
Proof.
  intros Hr Hw Hz. assert (w - r = 0); [|lia].
  apply uint_inj_near; [exact Hz|lia].
Qed.

(** Taking the byte at [cons.r] takes the head of the queue. *)
Lemma pending_pop (s : cons_t) :
  uint (cons_w s - cons_r s) <> 0 ->
  pending s = buf_get s (cons_r s) :: pending (set_r (uint (cons_r s + 1)) s).
Proof.
  intros Hne. unfold pending. cbn [cons_r cons_w set_r].
  pose proof (uint_range (cons_w s - cons_r s)) as Hrange.
  assert (Hk : uint (cons_w s - uint (cons_r s + 1))
               = uint (cons_w s - cons_r s) - 1).
  { rewrite uint_sub_r.
    replace (cons_w s - (cons_r s + 1)) with (cons_w s - cons_r s - 1) by lia.
    rewrite <- uint_sub_l. apply uint_small. lia. }
  rewrite Hk.
  replace (Z.to_nat (uint (cons_w s - cons_r s)))
    with (S (Z.to_nat (uint (cons_w s - cons_r s) - 1))) by lia.
  cbn [seq map]. f_equal.
  - rewrite Z.add_0_r. apply buf_get_uint.
  - rewrite <- seq_shift, map_map. apply map_ext. intros i.
    unfold buf_get. cbn [cons_buf set_r].
    rewrite uint_add_l. do 4 f_equal. lia.
Qed.


(** Only the 32-bit image of [cons.r] matters to the queue. *)
Lemma pending_set_r_uint (v : Z) (s : cons_t) :
  pending (set_r (uint v) s) = pending (set_r v s).
Proof.
  unfold pending. cbn [cons_r cons_w set_r]. rewrite uint_sub_r.
  apply map_ext. intros i. unfold buf_get. cbn [cons_buf set_r].
  rewrite uint_add_l. reflexivity.
Qed.


End Queue.

(** ** Typing into the queue *)

Section Typing.
Context {H : Headers}.

Lemma slot_differs (r e i k : Z) :
  uint (e - r) = k -> 0 <= i < k -> k < INPUT_BUF ->
  (r + i) mod INPUT_BUF <> e mod INPUT_BUF.
Proof.
  unfold INPUT_BUF. intros Hk Hi Hroom Heq.
  assert (Hmod : (e - r) mod 128 = k).
  { rewrite <- (Z.mod_small k 128) by lia. rewrite <- Hk. unfold uint.
    symmetry. apply Z.mod_mod_divide. exists (2 ^ 25). reflexivity. }
  assert (Hz : (e - (r + i)) mod 128 = 0).
  { rewrite Zminus_mod, <- Heq, Z.sub_diag. reflexivity. }
  replace (e - (r + i)) with ((e - r) - i) in Hz by lia.
  rewrite Zminus_mod, Hmod, (Z.mod_small i 128), (Z.mod_small (k - i) 128) in Hz; lia.
Qed.

Lemma slot_same (r e k : Z) :
  uint (e - r) = k -> (r + k) mod INPUT_BUF = e mod INPUT_BUF.
Proof.
  unfold INPUT_BUF. intros Hk.
  assert (Hmod : (e - r) mod 128 = k mod 128).
  { rewrite <- Hk. unfold uint.
    symmetry. apply Z.mod_mod_divide. exists (2 ^ 25). reflexivity. }
  rewrite Zplus_mod, <- Hmod, <- Zplus_mod. f_equal. lia.
Qed.

(** A character that is accepted joins the queue at its end. *)
Lemma pending_push (c : Z) (s : cons_t) :
  cons_w s = cons_e s ->
  length (cons_buf s) = Z.to_nat INPUT_BUF ->
  c <> 0 ->
  uint (cons_e s - cons_r s) < INPUT_BUF ->
  pending (exec (consoleintr c) s) = pending s ++ [keyed c].
Proof.
  intros Hwe Hlen Hc Hroom.
  rewrite consoleintr_exec by exact Hwe.
  pose proof Hc as Hc'. apply Z.eqb_neq in Hc'.
  pose proof Hroom as Hroom'. apply Z.ltb_lt in Hroom'.
  rewrite Hc', Hroom'. cbn [negb andb].
  pose proof (uint_range (cons_e s - cons_r s)) as Hrange.
  unfold pending. cbn [cons_r cons_w set_w set_e buf_set set_buf].
  rewrite Hwe.
  assert (Hk : uint (uint (cons_e s + 1) - cons_r s)
               = uint (cons_e s - cons_r s) + 1).
  { rewrite uint_sub_l.
    replace (cons_e s + 1 - cons_r s) with (cons_e s - cons_r s + 1) by lia.
    rewrite <- uint_add_l. apply uint_small. unfold INPUT_BUF in *. lia. }
  rewrite Hk.
  replace (Z.to_nat (uint (cons_e s - cons_r s) + 1))
    with (S (Z.to_nat (uint (cons_e s - cons_r s)))) by lia.
  rewrite seq_S, map_app. cbn [map Nat.add]. f_equal.
  - apply map_ext_in. intros i Hi. apply in_seq in Hi.
    rewrite !buf_get_uint. unfold buf_get. cbn [cons_buf].
    apply list_lookup_total_insert_ne. intros Heq.
    apply (slot_differs (cons_r s) (cons_e s) (Z.of_nat i)
             (uint (cons_e s - cons_r s))); [reflexivity|lia|exact Hroom|].
    pose proof (Z.mod_pos_bound (cons_e s) INPUT_BUF ltac:(reflexivity)).
    pose proof (Z.mod_pos_bound (cons_r s + Z.of_nat i) INPUT_BUF ltac:(reflexivity)).
    lia.
  - f_equal. rewrite buf_get_uint. unfold buf_get. cbn [cons_buf].
    rewrite Z2Nat.id by lia.
    rewrite (slot_same (cons_r s) (cons_e s) _ eq_refl).
    apply list_lookup_total_insert_eq. rewrite Hlen.
    pose proof (Z.mod_pos_bound (cons_e s) INPUT_BUF ltac:(reflexivity)). lia.
Qed.

Lemma run_from_app (s : cons_t) (tr1 tr2 : list (extern * call)) :
  run_from s (tr1 ++ tr2) = run_from (run_from s tr1) tr2.
Proof.
  revert s. induction tr1 as [|[x k] tr1 IH]; intros s; [reflexivity|].
  cbn. apply IH.
Qed.

Lemma run_snoc (tr : list (extern * call)) (x : extern) (k : call) :
  run (tr ++ [(x, k)]) = exec (step x k) (run tr).
Proof. unfold run. rewrite run_from_app. reflexivity. Qed.

(** The queue never holds more than [INPUT_BUF] bytes. *)
Lemma pending_bounded (tr : list (extern * call)) :
  (length (pending (run tr)) <= Z.to_nat INPUT_BUF)%nat.
Proof.
  rewrite length_pending.
  destruct (run_inv tr) as (Hwe & R & E & HRE & HEb & Hcap & Hr & He).
  rewrite Hwe, Hr, He, uint_sub_l, uint_sub_r.
  unfold INPUT_BUF in *. rewrite uint_small; lia.
Qed.

Lemma pending_typed (tr : list (extern * call)) (l : list Z) :
  pending (run (tr ++ typed l))
  = pending (run tr)
    ++ take (Z.to_nat INPUT_BUF - length (pending (run tr)))
            (map keyed (filter (fun c => c <> 0) l)).
Proof.
  revert tr. induction l as [|c l IH]; intros tr.
  - cbn. rewrite take_nil, !app_nil_r. reflexivity.
  - change (typed (c :: l)) with ([(calm, Intr c)] ++ typed l).
    rewrite (assoc_L (++)), IH, run_snoc. cbn [step].
    destruct (run_inv tr) as (Hwe & _).
    pose proof (pending_bounded tr) as Hcap.
    pose proof (length_pending (run tr)) as Hlen. rewrite Hwe in Hlen.
    pose proof (uint_range (cons_e (run tr) - cons_r (run tr))) as Hrange.
    destruct (Z.eq_dec c 0) as [->|Hc].
    { rewrite consoleintr_exec by exact Hwe. cbn [Z.eqb negb andb].
      rewrite filter_cons_False by (intros Hne; apply Hne; reflexivity).
      reflexivity. }
    rewrite filter_cons_True by exact Hc. cbn [map].
    destruct (Z.lt_ge_cases (uint (cons_e (run tr) - cons_r (run tr))) INPUT_BUF)
      as [Hroom|Hfull].
    + rewrite pending_push by (try assumption; apply run_buf_length).
      rewrite length_app. cbn [length].
      replace (Z.to_nat INPUT_BUF - length (pending (run tr)))%nat
        with (S (Z.to_nat INPUT_BUF - (length (pending (run tr)) + 1)))%nat by lia.
      cbn [take]. rewrite <- (assoc_L (++)). reflexivity.
    + rewrite consoleintr_exec by exact Hwe.
      apply Z.ltb_ge in Hfull as Hfull'. rewrite Hfull', andb_false_r.
      replace (Z.to_nat INPUT_BUF - length (pending (run tr)))%nat with O by lia.
      reflexivity.
Qed.

(** X6: typing is enqueueing.  After any sequence of calls, the
    characters then typed join the queue of unread bytes in order, each
    as [consoleintr] stores it (carriage return as newline, cut to a
    byte), the characters with a case in the [switch] included; zeros
    are skipped, and what does not fit into the [INPUT_BUF] slots is
    dropped, so that the queue never holds more than [INPUT_BUF]
    bytes. *)
Theorem typed_enqueued (tr : list (extern * call)) (l : list Z) :
  pending (run (tr ++ typed l))
  = pending (run tr)
    ++ take (Z.to_nat INPUT_BUF - length (pending (run tr)))
            (map keyed (filter (fun c => c <> 0) l)) /\
  (length (pending (run (tr ++ typed l))) <= Z.to_nat INPUT_BUF)%nat.
Proof.
  split.
  - apply pending_typed.
  - apply pending_bounded.
Qed.

End Typing.

(** ** Reading from the queue *)

Section Reading.
Context {H : Headers}.

#[local] Arguments dst_after : simpl never.

Lemma dst_after_S (dst : Z) (k : nat) :
  dst_after dst (S k) = dst_after (uint64 (dst + 1)) k.
Proof.
  unfold dst_after. induction k as [|k IH]; [reflexivity|].
  change (uint64 (Nat.iter (S k) (fun d => uint64 (d + 1)) dst + 1)
          = uint64 (Nat.iter k (fun d => uint64 (d + 1)) (uint64 (dst + 1)) + 1)).
  rewrite IH. reflexivity.
Qed.

Lemma delivered_copied (user_dst dst c : Z) (o : list event) :
  delivered (copied_out user_dst dst c :: o) = c :: delivered o.
Proof. reflexivity. Qed.

Lemma read_loop_sound
    (x : extern) (fuel : nat) (user_dst target dst n : Z) (s : cons_t) :
  0 <= cons_r s < 2 ^ 32 ->
  0 <= cons_w s < 2 ^ 32 ->
  reads_in_order x user_dst dst s (read_loop x fuel user_dst target dst n s) /\
  ends_properly x target dst n (read_loop x fuel user_dst target dst n s).
Proof.
  revert dst n s. induction fuel as [|fuel IH]; intros dst n s Hr Hw.
  { cbn. split.
    - exists []. cbn. repeat split. left. reflexivity.
    - split; [cbn; lia|]. left. cbn. rewrite Z.sub_0_r. reflexivity. }
  cbn [read_loop].
  destruct (Z.gtb_spec n 0) as [Hn|Hn].
  2:{ split.
      - exists []. cbn. repeat split. left. reflexivity.
      - split; [cbn; lia|]. left. cbn. rewrite Z.sub_0_r. reflexivity. }
  unfold bind, get. cbn.
  destruct (Z.eqb_spec (cons_r s) (cons_w s)) as [Hempty|Hsome].
  { pose proof (pending_empty s Hempty) as Hp.
    destruct (killed x) eqn:Hkill; (split;
      [exists []; cbn; rewrite Hp; repeat split; left; reflexivity|]).
    - split; [cbn; lia|]. right. left. cbn. repeat split; assumption.
    - split; [cbn; lia|]. right. right. cbn. rewrite Z.sub_0_r.
      repeat split; assumption. }
  assert (Hne : uint (cons_w s - cons_r s) <> 0).
  { intros Hz. apply Hsome. apply uint_diff_zero; assumption. }
  pose proof (pending_pop s Hne) as Hpop.
  set (c := buf_get s (cons_r s)) in *.
  set (s1 := set_r (uint (cons_r s + 1)) s) in *.
  destruct (Z.eqb_spec c (C (chr "D"))) as [Heof|Hnoeof]; cbn [andb].
  { destruct (is_set ICANON s) eqn:Hcanon.
    - destruct (uint n <? target); cbn.
      + pose proof (set_r_back s Hr) as Hback. cbn in Hback.
        fold s1 in Hback. rewrite Hback. split.
        * exists []. cbn. repeat split. left. reflexivity.
        * split; [cbn; lia|]. left. cbn. rewrite Z.sub_0_r. reflexivity.
      + split.
        * exists [c]. cbn. split; [exact Hpop|]. split; [reflexivity|].
          right. left. split; [rewrite Heof; reflexivity|exact Hcanon].
        * split; [cbn; lia|]. left. cbn. rewrite Z.sub_0_r. reflexivity.
    - (* raw mode: control-D is a byte like any other *)
      destruct (copyout_ok x user_dst dst 1) eqn:Hcopy; cbn.
      2:{ split.
          - exists [c]. cbn. split; [exact Hpop|]. split; [reflexivity|].
            right. right. exists c. split; [reflexivity|exact Hcopy].
          - split; [cbn; lia|]. left. cbn. rewrite Z.sub_0_r. reflexivity. }
      rewrite andb_false_r.
      destruct (IH (uint64 (dst + 1)) (n - 1) s1) as [Hord Hend];
        [apply uint_range|exact Hw|].
      destruct (read_loop x fuel user_dst target (uint64 (dst + 1)) (n - 1) s1)
        as [[v s'] o'].
      split.
      + destruct Hord as (eaten & Hq & Ho & Hcase). cbn in Hq, Ho, Hcase.
        exists eaten. cbn. split; [rewrite Hpop, Hq; reflexivity|].
        split; [rewrite <- Ho; reflexivity|].
        rewrite dst_after_S. exact Hcase.
      + unfold ends_properly in *. cbn [fst snd] in *.
        destruct Hend as (Hlen & Hcase).
        rewrite delivered_copied. cbn [length]. rewrite dst_after_S.
        replace (n - Z.of_nat (S (length (delivered o'))))
          with (n - 1 - Z.of_nat (length (delivered o'))) by lia.
        split; [lia|exact Hcase]. }
  destruct (copyout_ok x user_dst dst 1) eqn:Hcopy; cbn.
  2:{ split.
      - exists [c]. cbn. split; [exact Hpop|]. split; [reflexivity|].
        right. right. exists c. split; [reflexivity|exact Hcopy].
      - split; [cbn; lia|]. left. cbn. rewrite Z.sub_0_r. reflexivity. }
  destruct ((c =? chr "010") && is_set ICANON s).
  { split.
    - exists []. cbn. split; [rewrite Hpop; reflexivity|].
      split; [reflexivity|]. left. reflexivity.
    - split; [cbn; lia|]. left. cbn. reflexivity. }
  destruct (IH (uint64 (dst + 1)) (n - 1) s1) as [Hord Hend];
    [apply uint_range|exact Hw|].
  destruct (read_loop x fuel user_dst target (uint64 (dst + 1)) (n - 1) s1)
    as [[v s'] o'].
  split.
  - destruct Hord as (eaten & Hq & Ho & Hcase). cbn in Hq, Ho, Hcase.
    exists eaten. cbn. split; [rewrite Hpop, Hq; reflexivity|].
    split; [rewrite <- Ho; reflexivity|].
    rewrite dst_after_S. exact Hcase.
  - unfold ends_properly in *. cbn [fst snd] in *.
    destruct Hend as (Hlen & Hcase).
    rewrite delivered_copied. cbn [length]. rewrite dst_after_S.
    replace (n - Z.of_nat (S (length (delivered o'))))
      with (n - 1 - Z.of_nat (length (delivered o'))) by lia.
    split; [lia|exact Hcase].
Qed.

Lemma run_indices (tr : list (extern * call)) :
  0 <= cons_r (run tr) < 2 ^ 32 /\ 0 <= cons_w (run tr) < 2 ^ 32.
Proof.
  destruct (run_inv tr) as (Hwe & R & E & _ & _ & _ & Hr & He).
  rewrite Hwe, Hr, He. split; apply uint_range.
Qed.

(** X7: [consoleread] takes from the head of the queue, in order.
    After any sequence of calls, the bytes a call (or a woken call,
    with any [target]) copies out are the oldest unread bytes, oldest
    first, stored at [dst], [dst + 1], ...; the rest of the queue
    stays, but for at most one byte right after the ones copied: an
    end-of-file mark taken in canonical mode, or a byte whose copy to
    the destination failed. *)
Theorem consoleread_in_order
    (tr : list (extern * call)) (x : extern) (user_dst dst n : Z) :
  reads_in_order x user_dst dst (run tr)
    (consoleread x user_dst dst n (run tr)) /\
  forall target,
    reads_in_order x user_dst dst (run tr)
      (consoleread_wake x user_dst target dst n (run tr)).
Proof.
  destruct (run_indices tr) as [Hr Hw].
  split; [|intros target];
    apply (read_loop_sound x (Z.to_nat n) user_dst _ dst n (run tr) Hr Hw).
Qed.

(** X8: what [consoleread] returns.  After any sequence of calls, a
    call for [n] bytes copies [len <= n] bytes (none for [n <= 0]) and
    then either returns [len], or returns -1 because the queue is empty
    and the task killed, or sleeps on the empty queue with [n - len]
    bytes still to fetch at [dst + len]. *)
Theorem consoleread_count
    (tr : list (extern * call)) (x : extern) (user_dst dst n : Z) :
  n < 2 ^ 31 ->
  let res := consoleread x user_dst dst n (run tr) in
  let len := Z.of_nat (length (delivered res.2)) in
  len <= Z.max 0 n /\
  (res.1.1 = Returned len
   \/ (res.1.1 = Returned (-1) /\ killed x = true /\ pending res.1.2 = [])
   \/ (res.1.1 = Asleep (uint n) (dst_after dst (length (delivered res.2))) (n - len)
        /\ killed x = false /\ 0 < n - len /\ pending res.1.2 = [])).
Proof.
  intros Hn. destruct (run_indices tr) as [Hr Hw].
  destruct (read_loop_sound x (Z.to_nat n) user_dst (uint n) dst n (run tr) Hr Hw)
    as [_ Hend].
  unfold ends_properly in Hend. cbn zeta in Hend |- *.
  fold (consoleread x user_dst dst n (run tr)) in Hend.
  destruct Hend as (Hlen & Hcase). split; [exact Hlen|].
  destruct Hcase as [Hret|Hrest]; [left|right; exact Hrest].
  rewrite Hret. f_equal.
  set (len := Z.of_nat (length (delivered (consoleread x user_dst dst n (run tr)).2))) in *.
  destruct (Z.le_gt_cases 0 n) as [Hpos|Hneg].
  - apply count_returned; lia.
  - assert (len = 0) as -> by lia.
    rewrite Z.sub_0_r, uint_sub_l, Z.sub_diag. reflexivity.
Qed.

End Reading.

(** ** Lines *)

Section Lines.
Context {H : Headers}.

#[local] Arguments dst_after : simpl never.









End Lines.

(** ** From the keyboard to the reader *)

Section RoundTrip.
Context {H : Headers}.




End RoundTrip.

(** ** The interrupt handler after any run *)

Section Handler.
Context {H : Headers}.

Lemma run_is_set (tr : list (extern * call)) :
  is_set ICANON (run tr) = negb (ICANON =? 0) /\
  is_set ECHO (run tr) = negb (ECHO =? 0).
Proof.
  unfold is_set. rewrite run_termios. cbn.
  rewrite land_lor_same_r, land_lor_same_l. split; reflexivity.
Qed.

Lemma consputc_run (c : Z) (s : cons_t) : consputc c s = (tt, s, echoed c).
Proof.
  unfold consputc, echoed. destruct (c =? BACKSPACE); reflexivity.
Qed.

(** X14: [consoleintr] after any sequence of calls, in full.  A
    character other than 0 that finds room is stored at the edit index
    (carriage return as newline), committed at once, echoed as it is
    stored if [ECHO] is not 0, and followed by a wakeup; otherwise
    [cons] stays as it is and nothing is echoed.  Before that,
    control-P in canonical mode dumps the process list.  No character
    erases anything: backspace, DEL and control-U are stored and echoed
    like the others. *)
Theorem consoleintr_after_run (tr : list (extern * call)) (c : Z) :
  let s := run tr in
  let accepted := negb (c =? 0) && (uint (cons_e s - cons_r s) <? INPUT_BUF) in
  consoleintr c s
  = (tt,
     if accepted then
       set_w (uint (cons_e s + 1))
         (set_e (uint (cons_e s + 1)) (buf_set (cons_e s) (stored c) s))
     else s,
     (if negb (ICANON =? 0) && (c =? C (chr "P")) then [procdump] else [])
     ++ (if accepted then
           (if negb (ECHO =? 0) then echoed (stored c) else []) ++ [wakeup]
         else [])).
Proof.
  cbn zeta. destruct (run_inv tr) as (Hwe & _).
  destruct (run_is_set tr) as [Hcanon Hecho].
  unfold consoleintr, bind, get. cbn.
  rewrite Hcanon.
  assert (Hedit :
    (if negb (ICANON =? 0) then line_edit c else ret tt) (run tr)
    = (tt, run tr,
       if negb (ICANON =? 0) && (c =? C (chr "P")) then [procdump] else [])).
  { destruct (negb (ICANON =? 0)); [|reflexivity].
    rewrite line_edit_idle by exact Hwe. reflexivity. }
  rewrite Hedit.
  destruct (negb (c =? 0) && (uint (cons_e (run tr) - cons_r (run tr)) <? INPUT_BUF));
    [|reflexivity].
  fold (stored c). rewrite Hecho.
  assert (Hput :
    (if negb (ECHO =? 0) then consputc (stored c) else ret tt) (run tr)
    = (tt, run tr, if negb (ECHO =? 0) then echoed (stored c) else [])).
  { destruct (negb (ECHO =? 0)); [apply consputc_run|reflexivity]. }
  rewrite Hput. unfold modify, emit. cbn.
  match goal with |- context [if ?b then _ else _] =>
    match b with
    | context [is_set] => destruct b
    end
  end; cbn; rewrite ?app_nil_r; reflexivity.
Qed.

End Handler.

(** ** A read that slept *)

Section Resuming.
Context {H : Headers}.

(** X15: the count spans the sleep.  A call for [n] bytes copied [len1]
    bytes and went to sleep.  When it is woken, after whatever other
    calls, it goes on with the rest of the request behind the bytes
    already copied, copies [len2 <= n - len1] bytes more, and if it
    returns a count, the count is [len1 + len2]; else the queue is
    empty again and it returns -1 (task killed) or sleeps once more. *)
Theorem consoleread_resumed
    (tr1 tr2 : list (extern * call)) (x1 x2 : extern)
    (user_dst dst n target dst' n' : Z) :
  n < 2 ^ 31 ->
  value (consoleread x1 user_dst dst n) (run tr1) = Asleep target dst' n' ->
  let len1 := Z.of_nat (length (delivered (output (consoleread x1 user_dst dst n) (run tr1)))) in
  let res := consoleread_wake x2 user_dst target dst' n' (run tr2) in
  let len2 := Z.of_nat (length (delivered res.2)) in
  target = uint n /\ n' = n - len1 /\ 0 < n' /\
  len2 <= n' /\
  (res.1.1 = Returned (len1 + len2)
   \/ (res.1.1 = Returned (-1) /\ killed x2 = true /\ pending res.1.2 = [])
   \/ (exists d'', res.1.1 = Asleep target d'' (n - len1 - len2)
        /\ killed x2 = false /\ pending res.1.2 = [])).
Proof.
  intros Hn Hsleep. cbn zeta.
  destruct (run_indices tr1) as [Hr1 Hw1].
  destruct (run_indices tr2) as [Hr2 Hw2].
  destruct (read_loop_sound x1 (Z.to_nat n) user_dst (uint n) dst n (run tr1) Hr1 Hw1)
    as [_ Hend1].
  unfold ends_properly in Hend1. cbn zeta in Hend1.
  fold (consoleread x1 user_dst dst n (run tr1)) in Hend1.
  unfold value in Hsleep.
  unfold output.
  set (len1 := Z.of_nat (length (delivered (consoleread x1 user_dst dst n (run tr1)).2))) in *.
  destruct Hend1 as (Hlen1 & Hcase1).
  assert (Hlocals : target = uint n /\ n' = n - len1 /\ 0 < n').
  { destruct Hcase1 as [Hret|[(Hret & _)|(Has & _ & Hpos & _)]];
      rewrite Hsleep in *; try discriminate.
    inversion Has. subst. repeat split. exact Hpos. }
  destruct Hlocals as (-> & -> & Hpos).
  split; [reflexivity|]. split; [reflexivity|]. split; [exact Hpos|].
  destruct (read_loop_sound x2 (Z.to_nat (n - len1)) user_dst (uint n) dst'
              (n - len1) (run tr2) Hr2 Hw2) as [_ Hend2].
  unfold ends_properly in Hend2. cbn zeta in Hend2.
  fold (consoleread_wake x2 user_dst (uint n) dst' (n - len1) (run tr2)) in Hend2.
  set (len2 := Z.of_nat (length (delivered
         (consoleread_wake x2 user_dst (uint n) dst' (n - len1) (run tr2)).2))) in *.
  destruct Hend2 as (Hlen2 & Hcase2). split; [lia|].
  destruct Hcase2 as [Hret|[Hkill|(Has & Hk & _ & Hq)]].
  - left. rewrite Hret. f_equal.
    replace (n - len1 - len2) with (n - (len1 + len2)) by lia.
    apply count_returned; lia.
  - right. left. exact Hkill.
  - right. right. eexists. split; [exact Has|]. split; assumption.
Qed.

End Resuming.

(** ** The slots *)

Section Slots.
Context {H : Headers}.




End Slots.

(** ** The queue at work *)

Section QueueAtWork.
#[local] Existing Instance usual_headers.

Lemma kill_line_erases_witness :
  (0 <= cons_e ab_uncommitted < 2 ^ 32 /\ 0 <= cons_w ab_uncommitted < 2 ^ 32) /\
  exists k : nat,
    Z.of_nat k <= uint (cons_e ab_uncommitted - cons_w ab_uncommitted) /\
    line_edit (C (chr "U")) ab_uncommitted
    = (tt, set_e (uint (cons_e ab_uncommitted - Z.of_nat k)) ab_uncommitted,
       concat (replicate k erase_seq)) /\
    (forall i, 1 <= i <= Z.of_nat k ->
       buf_get ab_uncommitted (uint (cons_e ab_uncommitted - i)) <> chr "010") /\
    (Z.of_nat k = uint (cons_e ab_uncommitted - cons_w ab_uncommitted)
     \/ buf_get ab_uncommitted (uint (cons_e ab_uncommitted - Z.of_nat k - 1))
        = chr "010").
Proof.
  assert (He : 0 <= cons_e ab_uncommitted < 2 ^ 32) by (vm_compute; split; [discriminate|reflexivity]).
  assert (Hw : 0 <= cons_w ab_uncommitted < 2 ^ 32) by (vm_compute; split; [discriminate|reflexivity]).
  split; [exact (conj He Hw)|].
  exact (kill_line_erases ab_uncommitted He Hw).
Defined.

(** Control-U on two uncommitted bytes takes both back. *)
Example kill_line_at_work :
  line_edit (C (chr "U")) ab_uncommitted
  = (tt, set_e 0 ab_uncommitted, erase_seq ++ erase_seq).
Proof. vm_compute. reflexivity. Qed.

Lemma consoleread_count_witness :
  5 < 2 ^ 31 /\
  let res := consoleread calm 0 0x1000 5 (run (typed [chr "a"; chr "b"])) in
  let len := Z.of_nat (length (delivered res.2)) in
  len <= Z.max 0 5 /\
  (res.1.1 = Returned len
   \/ (res.1.1 = Returned (-1) /\ killed calm = true /\ pending res.1.2 = [])
   \/ (res.1.1 = Asleep (uint 5) (dst_after 0x1000 (length (delivered res.2))) (5 - len)
        /\ killed calm = false /\ 0 < 5 - len /\ pending res.1.2 = [])).
Proof.
  split; [reflexivity|].
  apply (consoleread_count (typed [chr "a"; chr "b"]) calm 0 0x1000 5).
  reflexivity.
Defined.






Lemma consoleread_resumed_witness :
  (5 < 2 ^ 31 /\
   value (consoleread calm 0 0x1000 5) (run (typed [chr "a"; chr "b"]))
   = Asleep 5 0x1002 3) /\
  let len1 := Z.of_nat (length (delivered
     (output (consoleread calm 0 0x1000 5) (run (typed [chr "a"; chr "b"]))))) in
  let res := consoleread_wake calm 0 5 0x1002 3 (run ab_read_c_line) in
  let len2 := Z.of_nat (length (delivered res.2)) in
  5 = uint 5 /\ 3 = 5 - len1 /\ 0 < 3 /\
  len2 <= 3 /\
  (res.1.1 = Returned (len1 + len2)
   \/ (res.1.1 = Returned (-1) /\ killed calm = true /\ pending res.1.2 = [])
   \/ (exists d'', res.1.1 = Asleep 5 d'' (5 - len1 - len2)
        /\ killed calm = false /\ pending res.1.2 = [])).
Proof.
  split; [split; reflexivity|].
  apply (consoleread_resumed (typed [chr "a"; chr "b"]) ab_read_c_line
           calm calm 0 0x1000 5 5 0x1002 3).
  - reflexivity.
  - reflexivity.
Defined.

(** The woken call gets c and the newline and returns 4, the two bytes
    from before its sleep counted in. *)
Example resumed_at_work :
  consoleread_wake calm 0 5 0x1002 3 (run ab_read_c_line)
  = (Returned 4, set_r 4 (run ab_read_c_line),
     [copied_out 0 0x1002 (chr "c"); copied_out 0 0x1003 (chr "010")]).
Proof. vm_compute. reflexivity. Qed.

End QueueAtWork.
